(** * Ekşi Sözlük earthquake detector: patterns and monitoring loop

    A shallow embedding of [earthquake_patterns.py] and
    [earthquake_detector.py].

    - A Python [str] is a list of Unicode code points ([list Z]).
    - The Unicode character database used by [str.lower], by the regular
      expression escapes [\b] and [\d], and by [int] is a record
      ([UnicodeDB]) together with the facts about it that the proofs use;
      [latin_db] is a concrete table for the Latin blocks.
    - [re.search] is a small backtracking matcher over the star-free
      patterns the program uses.
    - [datetime] is the proleptic Gregorian calendar of CPython's
      [datetime] module; the reading of [datetime.now()] is an argument.
    - The monitoring loop is a state-passing fold over the poll cycles,
      with the dedup set as a [gset] and the observable effects as a
      trace.  [iteration] and [run_until] are the loop in general, where
      [fetch_gundem] and the [log_message] calls of the loop can raise and
      an exception of the [except Exception] handler ends the loop;
      [cycle] and [run] are the iterations in which they return. *)

From Stdlib Require Import ZArith Lia List Bool Ascii String.
From Stdlib Require Import DecimalString DecimalN.
From stdpp Require Import base decidable countable list gmap.
Import ListNotations.

Local Open Scope Z_scope.

(* ================================================================== *)
(** * Text *)
(* ================================================================== *)

Module Text.

(** A string is the list of its code points. *)
Abbreviation str := (list Z).

(** Decoder for the UTF-8 bytes of a string literal of this file, so that
    the lexicons below read like the ones of the source. *)
Fixpoint utf8_decode (bs : list Z) : str :=
  match bs with
  | [] => []
  | b0 :: r0 =>
      if b0 <? 128 then b0 :: utf8_decode r0
      else if b0 <? 224 then
        match r0 with
        | b1 :: r1 => ((b0 - 192) * 64 + (b1 - 128)) :: utf8_decode r1
        | [] => []
        end
      else if b0 <? 240 then
        match r0 with
        | b1 :: b2 :: r2 =>
            ((b0 - 224) * 4096 + (b1 - 128) * 64 + (b2 - 128)) :: utf8_decode r2
        | _ => []
        end
      else
        match r0 with
        | b1 :: b2 :: b3 :: r3 =>
            ((b0 - 240) * 262144 + (b1 - 128) * 4096 + (b2 - 128) * 64 + (b3 - 128))
              :: utf8_decode r3
        | _ => []
        end
  end.

Definition byte_of_ascii (a : ascii) : Z := Z.of_N (N_of_ascii a).

Definition u (s : string) : str :=
  utf8_decode (map byte_of_ascii (list_ascii_of_string s)).

(** [w in s] for strings: [w] occurs as a contiguous substring of [s]. *)
Fixpoint starts_with (w s : str) : bool :=
  match w, s with
  | [], _ => true
  | _ :: _, [] => false
  | a :: w', b :: s' => (a =? b) && starts_with w' s'
  end.

Fixpoint str_contains (w s : str) : bool :=
  starts_with w s ||
  match s with
  | [] => false
  | _ :: s' => str_contains w s'
  end.

(** [s.replace(old, new)] for one-character [old] and [new]. *)
Definition replace_char (old new : Z) (s : str) : str :=
  map (fun c => if c =? old then new else c) s.

(** Truth value of a string: the empty string is false. *)
Definition truthy_str (s : str) : bool :=
  match s with [] => false | _ :: _ => true end.

(** [str(n)] for an integer: its decimal digits, after a minus sign when
    it is negative. *)
Definition str_of_int (n : Z) : str :=
  let digits :=
    map byte_of_ascii
        (list_ascii_of_string
           (NilEmpty.string_of_uint (N.to_uint (Z.to_N (Z.abs n))))) in
  if n <? 0 then 45 :: digits else digits.

End Text.
Import Text.

(* ================================================================== *)
(** * Unicode character data *)
(* ================================================================== *)

Module Unicode.

Definition in_range (lo hi c : Z) : bool := (lo <=? c) && (c <=? hi).

Definition ascii_digit (c : Z) : bool := in_range 48 57 c.

(** The Turkish letters of the normalizer's table, small and capital. *)
Definition turkish_letters : list Z :=
  [305; 287; 252; 351; 246; 231; 304; 286; 220; 350; 214; 199].

Definition memZ (c : Z) (l : list Z) : bool := existsb (Z.eqb c) l.

(** Letters whose alphanumeric status the proofs rely on. *)
Definition latin_letter (c : Z) : bool :=
  in_range 97 122 c || in_range 65 90 c || memZ c turkish_letters.

(** Code points that lowercasing leaves alone: ASCII other than [A-Z],
    the small letters â ç ö ü ğ ı ş and the combining dot above. *)
Definition lower_stable (c : Z) : bool :=
  (in_range 0 127 c && negb (in_range 65 90 c))
  || memZ c [226; 231; 246; 252; 287; 305; 351; 775].

(** What the program takes from the Unicode character database.
    [str_lower] is [str.lower]; [isalnum] decides the alphanumeric code
    points ([\w] is those and the underscore); [todecimal] gives the value of
    a decimal digit (general category Nd: what [\d] matches and [int]
    reads) and [None] for any other code point. *)
Record UnicodeDB := {
  str_lower : str -> str;
  isalnum : Z -> bool;
  todecimal : Z -> option Z;
  todecimal_ascii :
    forall c, ascii_digit c = true -> todecimal c = Some (c - 48);
  todecimal_range :
    forall c v, todecimal c = Some v -> 0 <= v <= 9;
  todecimal_isalnum :
    forall c v, todecimal c = Some v -> isalnum c = true;
  isalnum_latin :
    forall c, latin_letter c = true -> isalnum c = true;
  str_lower_fixed :
    forall s, forallb lower_stable s = true -> str_lower s = s
}.

(** ** A concrete table for the Latin blocks

    [latin_db] agrees with CPython on the code points below U+0180 and on
    U+0307; the code points above are taken as caseless, not alphanumeric
    and not digits.  It is the table the example titles are evaluated
    with. *)

Definition latin_lower_cp (c : Z) : list Z :=
  if in_range 65 90 c then [c + 32]
  else if in_range 192 222 c && negb (c =? 215) then [c + 32]
  else if c =? 304 then [105; 775]
  else if c =? 376 then [255]
  else if (in_range 256 311 c || in_range 330 375 c) && Z.even c then [c + 1]
  else if (in_range 313 328 c || in_range 377 382 c) && Z.odd c then [c + 1]
  else [c].

Definition latin_lower (s : str) : str := flat_map latin_lower_cp s.

Definition latin_isalnum (c : Z) : bool :=
  in_range 48 57 c || in_range 65 90 c || in_range 97 122 c
  || memZ c [170; 178; 179; 181; 185; 186; 188; 189; 190]
  || (in_range 192 383 c && negb (c =? 215) && negb (c =? 247)).

Definition latin_todecimal (c : Z) : option Z :=
  if ascii_digit c then Some (c - 48) else None.

End Unicode.
Import Unicode.

(* ================================================================== *)
(** * Regular expressions: the fragment of [re] the program uses *)
(* ================================================================== *)

Module Re.

(** Star-free patterns with one capturing group. *)
Inductive regex :=
| Eps
| Lit (c : Z)                 (* a literal character *)
| Cls (p : Z -> bool)         (* a character class *)
| Bnd                         (* \b *)
| Seq (r1 r2 : regex)
| Alt (r1 r2 : regex)
| Grp (r : regex).            (* ( ... ) *)

(** State of one match attempt: the character before the cursor, the text
    after it, the text consumed so far, and the text of group 1. *)
Record mstate := MState {
  m_prev : option Z;
  m_rest : str;
  m_taken : str;
  m_group : str
}.

Section Matcher.
Context (U : UnicodeDB).

Definition is_word (c : Z) : bool := isalnum U c || (c =? 95).

(** [\b]: exactly one of the characters around the cursor is a word
    character; outside the string counts as a non-word character. *)
Definition word_boundary (prev : option Z) (rest : str) : bool :=
  xorb (match prev with Some c => is_word c | None => false end)
       (match rest with c :: _ => is_word c | [] => false end).

Definition advance (st : mstate) (c : Z) (rest : str) : mstate :=
  MState (Some c) rest (m_taken st ++ [c]) (m_group st).

(** Backtracking matcher in continuation-passing style: alternatives are
    tried left to right and the first that lets the rest of the pattern
    succeed wins. *)
Fixpoint rmatch {A} (r : regex) (st : mstate) (k : mstate -> option A) : option A :=
  match r with
  | Eps => k st
  | Lit c =>
      match m_rest st with
      | x :: rest => if x =? c then k (advance st x rest) else None
      | [] => None
      end
  | Cls p =>
      match m_rest st with
      | x :: rest => if p x then k (advance st x rest) else None
      | [] => None
      end
  | Bnd => if word_boundary (m_prev st) (m_rest st) then k st else None
  | Seq r1 r2 => rmatch r1 st (fun st1 => rmatch r2 st1 k)
  | Alt r1 r2 =>
      match rmatch r1 st k with
      | Some a => Some a
      | None => rmatch r2 st k
      end
  | Grp r1 =>
      rmatch r1 st (fun st1 =>
        k (MState (m_prev st1) (m_rest st1) (m_taken st1)
                  (drop (length (m_taken st)) (m_taken st1))))
  end.

Definition match_at (r : regex) (prev : option Z) (s : str) : option str :=
  rmatch r (MState prev s [] []) (fun st => Some (m_group st)).

(** [re.search]: the leftmost position where the pattern matches; the
    result is that position and the text of group 1. *)
Fixpoint search_from (r : regex) (prev : option Z) (s : str) (i : nat)
  : option (nat * str) :=
  match match_at r prev s with
  | Some g => Some (i, g)
  | None =>
      match s with
      | [] => None
      | c :: s' => search_from r (Some c) s' (S i)
      end
  end.

Definition re_search (r : regex) (s : str) : option (nat * str) :=
  search_from r None s 0%nat.

(** A literal string, as [re.escape] makes of it. *)
Fixpoint lits (w : str) : regex :=
  match w with
  | [] => Eps
  | c :: w' => Seq (Lit c) (lits w')
  end.

(** [int(s)] on a string of decimal digits. *)
Definition int_of_str (s : str) : Z :=
  fold_left (fun acc c => acc * 10 + default 0 (todecimal U c)) s 0.

End Matcher.

End Re.
Import Re.

(* ================================================================== *)
(** * Calendar: the part of [datetime] the program uses *)
(* ================================================================== *)

Module Calendar.

Record date := Date { year : Z; month : Z; day : Z }.

Record datetime := DateTime {
  dt_date : date;
  hour : Z; minute : Z; second : Z; microsecond : Z
}.

Definition MINYEAR : Z := 1.
Definition MAXYEAR : Z := 9999.

Definition is_leap (y : Z) : bool :=
  (y mod 4 =? 0) && (negb (y mod 100 =? 0) || (y mod 400 =? 0)).

Definition DAYS_IN_MONTH : list Z := [31; 28; 31; 30; 31; 30; 31; 31; 30; 31; 30; 31].

Definition DAYS_BEFORE_MONTH : list Z :=
  [0; 31; 59; 90; 120; 151; 181; 212; 243; 273; 304; 334].

Definition days_in_month (y m : Z) : Z :=
  if (m =? 2) && is_leap y then 29
  else nth (Z.to_nat (m - 1)) DAYS_IN_MONTH 0.

Definition days_before_year (y : Z) : Z :=
  let y1 := y - 1 in y1 * 365 + y1 / 4 - y1 / 100 + y1 / 400.

Definition days_before_month (y m : Z) : Z :=
  nth (Z.to_nat (m - 1)) DAYS_BEFORE_MONTH 0
  + (if (2 <? m) && is_leap y then 1 else 0).

Definition ymd2ord (y m d : Z) : Z :=
  days_before_year y + days_before_month y m + d.

Definition toordinal (d : date) : Z := ymd2ord (year d) (month d) (day d).

(** The range check of the constructor; a triple that fails it raises
    [ValueError]. *)
Definition check_date_fields (y m d : Z) : bool :=
  (MINYEAR <=? y) && (y <=? MAXYEAR)
  && (1 <=? m) && (m <=? 12)
  && (1 <=? d) && (d <=? days_in_month y m).

(** [datetime(year, month, day)]; [None] stands for [ValueError]. *)
Definition datetime_new (y m d : Z) : option datetime :=
  if check_date_fields y m d then Some (DateTime (Date y m d) 0 0 0 0) else None.

(** [(a - b).days] for two dates. *)
Definition days_between (a b : date) : Z := toordinal a - toordinal b.

End Calendar.
Import Calendar.

(* ================================================================== *)
(** * earthquake_patterns.py *)
(* ================================================================== *)

Module Patterns.

Local Open Scope string_scope.

(** The 81 provinces followed by the ASCII variants, in the order of the
    source ("bayburt" is listed twice there too). *)
Definition PROVINCES : list str := map u [
    "adana"; "adıyaman"; "afyonkarahisar"; "ağrı"; "aksaray"; "amasya"; "ankara";
    "antalya"; "ardahan"; "artvin"; "aydın"; "balıkesir"; "bartın"; "batman";
    "bayburt"; "bilecik"; "bingöl"; "bitlis"; "bolu"; "burdur"; "bursa";
    "çanakkale"; "çankırı"; "çorum"; "denizli"; "diyarbakır"; "düzce"; "edirne";
    "elazığ"; "erzincan"; "erzurum"; "eskişehir"; "gaziantep"; "giresun";
    "gümüşhane"; "hakkâri"; "hatay"; "ığdır"; "isparta"; "istanbul"; "i̇stanbul";
    "izmir"; "i̇zmir"; "kahramanmaraş"; "karabük"; "karaman"; "kars"; "kastamonu";
    "kayseri"; "kilis"; "kırıkkale"; "kırklareli"; "kırşehir"; "kocaeli"; "konya";
    "kütahya"; "malatya"; "manisa"; "mardin"; "mersin"; "muğla"; "muş"; "nevşehir";
    "niğde"; "ordu"; "osmaniye"; "rize"; "sakarya"; "samsun"; "siirt"; "sinop";
    "sivas"; "şanlıurfa"; "şırnak"; "tekirdağ"; "tokat"; "trabzon"; "tunceli";
    "uşak"; "van"; "yalova"; "yozgat"; "zonguldak";
    (* ASCII variants (without Turkish characters) *)
    "adiyaman"; "afyon"; "agri"; "aydin"; "balikesir"; "bartin"; "bayburt";
    "bingol"; "canakkale"; "cankiri"; "corum"; "diyarbakir"; "duzce"; "elazig";
    "gumushane"; "hakkari"; "igdir"; "kahramanmaras"; "karabuk"; "kirikkale";
    "kirklareli"; "kirsehir"; "kutahya"; "mugla"; "mus"; "nigde"; "sanliurfa";
    "sirnak"; "tekirdag"
  ].

Definition MONTHS : list (str * Z) := [
    (u "ocak", 1); (u "şubat", 2); (u "subat", 2); (u "mart", 3); (u "nisan", 4);
    (u "mayıs", 5); (u "mayis", 5); (u "haziran", 6); (u "temmuz", 7);
    (u "ağustos", 8); (u "agustos", 8); (u "eylül", 9); (u "eylul", 9);
    (u "ekim", 10); (u "kasım", 11); (u "kasim", 11); (u "aralık", 12); (u "aralik", 12)
  ].

Definition EARTHQUAKE_KEYWORDS : list str := [u "deprem"; u "depremi"].

(** The one code point of a one-character literal. *)
Definition cp (s : string) : Z := hd 0 (u s).

Definition replacements : list (Z * Z) := [
    (cp "ı", cp "i");
    (cp "ğ", cp "g");
    (cp "ü", cp "u");
    (cp "ş", cp "s");
    (cp "ö", cp "o");
    (cp "ç", cp "c");
    (cp "İ", cp "i");
    (cp "Ğ", cp "g");
    (cp "Ü", cp "u");
    (cp "Ş", cp "s");
    (cp "Ö", cp "o");
    (cp "Ç", cp "c")
  ].

Local Close Scope string_scope.

Inductive Confidence := high | medium.

Record Candidate := {
  c_day : Z;
  c_month : Z;
  c_month_name : str;
  c_year : Z;
  c_province : str;
  c_has_earthquake_keyword : bool;
  c_confidence : Confidence
}.

(** [\b([1-9]|[12][0-9]|3[01])\b] *)
Definition day_re : regex :=
  Seq Bnd
    (Seq (Grp (Alt (Cls (in_range 49 57))
              (Alt (Seq (Cls (in_range 49 50)) (Cls (in_range 48 57)))
                   (Seq (Lit 51) (Cls (in_range 48 49))))))
         Bnd).

(** [r'\b' + re.escape(w) + r'\b'] *)
Definition word_re (w : str) : regex := Seq Bnd (Seq (lits w) Bnd).

(** The first entry of an ordered lexicon whose spelling occurs in the
    text. *)
Definition find_month (lexicon : list (str * Z)) (text : str) : option (str * Z) :=
  List.find (fun e => str_contains (fst e) text) lexicon.

Section Detector.
Context (U : UnicodeDB).

(** [\d] *)
Definition re_digit : regex := Cls (fun c => bool_decide (is_Some (todecimal U c))).

(** [\b(20\d{2})\b] *)
Definition year_re : regex :=
  Seq Bnd
    (Seq (Grp (Seq (Lit 50) (Seq (Lit 48) (Seq re_digit re_digit))))
         Bnd).

Definition normalize_turkish (text : str) : str :=
  let text := str_lower U text in
  fold_left (fun normalized r => replace_char (fst r) (snd r) normalized)
            replacements text.

Definition is_date_current (now : datetime) (day month year tolerance_days : Z) : bool :=
  match datetime_new year month day with
  | Some extracted =>
      let extracted_date := dt_date extracted in
      let current_date := dt_date now in
      let time_diff := Z.abs (days_between extracted_date current_date) in
      time_diff <=? tolerance_days
  | None => false
  end.

Definition found (m : option (nat * str)) : bool :=
  match m with Some _ => true | None => false end.

Definition province_matches (title_lower title_normalized province : str) : bool :=
  let province_normalized := normalize_turkish province in
  found (re_search U (word_re province) title_lower)
  || found (re_search U (word_re province_normalized) title_normalized).

Definition find_province (title_lower title_normalized : str) : option str :=
  List.find (province_matches title_lower title_normalized) PROVINCES.

(** [is_earthquake_baslik(title)], with the reading of the clock as an
    argument; [None] is the result [None] of the source. *)
Definition is_earthquake_baslik (now : datetime) (title : str) : option Candidate :=
  let title_lower := str_lower U title in
  let title_normalized := normalize_turkish title in
  match re_search U day_re title with
  | None => None
  | Some (_, day_text) =>
  let day := int_of_str U day_text in
  match find_month MONTHS title_lower with
  | None => None
  | Some (month_name, month) =>
  if month =? 0 then None else
  match re_search U year_re title with
  | None => None
  | Some (_, year_text) =>
  let year := int_of_str U year_text in
  if negb (is_date_current now day month year 1) then None else
  match find_province title_lower title_normalized with
  | None => None
  | Some found_province =>
  if negb (truthy_str found_province) then None else
  let has_earthquake_keyword :=
    existsb (fun kw => str_contains kw title_lower) EARTHQUAKE_KEYWORDS in
  Some {| c_day := day;
          c_month := month;
          c_month_name := month_name;
          c_year := year;
          c_province := found_province;
          c_has_earthquake_keyword := has_earthquake_keyword;
          c_confidence := if has_earthquake_keyword then high else medium |}
  end end end end.

End Detector.

End Patterns.
Import Patterns.

(* ================================================================== *)
(** * earthquake_detector.py *)
(* ================================================================== *)

Module Detector.

Definition POLL_INTERVAL : Z := 30.
Definition HEARTBEAT_INTERVAL : Z := 2.

(** One entry of the list [fetch_gundem] returns. *)
Record Baslik := {
  title : str;
  url : str;
  entry_count : str;
  timestamp : str
}.

(** What a call of [save_earthquake_event] does: it returns, or one of its
    writes raises. *)
Inductive sink_outcome := SinkOk | SinkRaises.

(** One fetched topic as the loop meets it: the başlık, the reading of the
    clock while it is examined, and what the Event Sink does if it is
    called for it. *)
Record observation := {
  o_baslik : Baslik;
  o_now : datetime;
  o_sink : sink_outcome
}.

(** The observable effects of the loop, in the order they happen. *)
Inductive event :=
| Heartbeat (fetch_count : Z)
| SinkCall (b : Baslik) (pm : Candidate) (outcome : sink_outcome)
| UnexpectedError
| Sleep (seconds : Z).

Record loop_state := LoopState {
  detected_earthquakes : gset str;
  fetch_count : Z;
  trace : list event
}.

(** State and exceptions: a computation returns a value or raises, and
    leaves a state either way. *)
Inductive outcome (A : Type) := Returned (a : A) | Raised.
Arguments Returned {A} a.
Arguments Raised {A}.

Definition M (A : Type) : Type := loop_state -> outcome A * loop_state.

#[export] Instance M_ret : MRet M := fun A a st => (Returned a, st).

#[export] Instance M_bind : MBind M := fun A B f m st =>
  match m st with
  | (Returned a, st1) => f a st1
  | (Raised, st1) => (Raised, st1)
  end.

Definition raise {A} : M A := fun st => (Raised, st).

Definition get : M loop_state := fun st => (Returned st, st).

Definition emit (e : event) : M unit :=
  fun st => (Returned tt,
             LoopState (detected_earthquakes st) (fetch_count st) (trace st ++ [e])).

(** [try: body except Exception: handler] *)
Definition try_except (body handler : M unit) : loop_state -> loop_state :=
  fun st =>
    match body st with
    | (Returned _, st1) => st1
    | (Raised, st1) => snd (handler st1)
    end.

(** The dedup key components. *)
Definition event_identity (pm : Candidate) : Z * Z * Z * str :=
  (c_day pm, c_month pm, c_year pm, c_province pm).

(** [f"{day}-{month}-{year}-{province}"] *)
Definition earthquake_id (pm : Candidate) : str :=
  str_of_int (c_day pm) ++ [45] ++ str_of_int (c_month pm) ++ [45]
  ++ str_of_int (c_year pm) ++ [45] ++ c_province pm.

Definition save_earthquake_event (b : Baslik) (pm : Candidate) (o : sink_outcome) : M unit :=
  emit (SinkCall b pm o) ;;
  match o with
  | SinkOk => mret tt
  | SinkRaises => raise
  end.

Definition add_detected (id : str) : M unit :=
  fun st => (Returned tt,
             LoopState ({[ id ]} ∪ detected_earthquakes st) (fetch_count st) (trace st)).

Definition incr_fetch_count : M unit :=
  fun st => (Returned tt,
             LoopState (detected_earthquakes st) (fetch_count st + 1) (trace st)).

Definition sleep (seconds : Z) : M unit := emit (Sleep seconds).

Definition initial_state : loop_state := LoopState ∅ 0 [].

(** What a call of [log_message] made by the loop itself does: the line is
    printed and appended to the log file, or [print], [open] or [write]
    raises. *)
Inductive log_outcome := LogOk | LogRaises.

(** What one iteration of [while True] meets: [fetch_gundem] returns its
    list or raises ([None]; its handlers call [log_message], whose exception
    leaves them), and what [log_message] does for the heartbeat line and for
    the line of the [except Exception] handler, when they are reached. *)
Record iteration_input := {
  it_fetch : option (list observation);
  it_heartbeat_log : log_outcome;
  it_handler_log : log_outcome
}.

(** How an iteration leaves the loop: it goes on to the next iteration, or
    an exception leaves [monitor_earthquakes]. *)
Inductive loop_result := Continues (st : loop_state) | Ends (st : loop_state).

Definition state_of (r : loop_result) : loop_state :=
  match r with Continues st | Ends st => st end.

(** [log_message(...)] for a line of the trace: the line is recorded when
    the call returns. *)
Definition log_message (o : log_outcome) (e : event) : M unit :=
  match o with
  | LogOk => emit e
  | LogRaises => raise
  end.

Section Loop.
Context (U : UnicodeDB).

(** The [for baslik in basliks] loop. *)
Fixpoint check_basliks (basliks : list observation) : M unit :=
  match basliks with
  | [] => mret tt
  | o :: rest =>
      match is_earthquake_baslik U (o_now o) (title (o_baslik o)) with
      | Some pattern_match =>
          let earthquake_id := earthquake_id pattern_match in
          st ← get;
          (if bool_decide (earthquake_id ∈ detected_earthquakes st)
           then mret tt
           else save_earthquake_event (o_baslik o) pattern_match (o_sink o) ;;
                add_detected earthquake_id) ;;
          check_basliks rest
      | None => check_basliks rest
      end
  end.

(** The body of the [try] of one iteration of [while True] in which
    [fetch_gundem] returns and the heartbeat line, when one is due, is
    written; [basliks] is what [fetch_gundem] returned, the empty list when
    the fetch failed and its handler logged the failure. *)
Definition poll (basliks : list observation) : M unit :=
  incr_fetch_count ;;
  (match basliks with
   | [] => mret tt
   | _ :: _ =>
       st ← get;
       (if fetch_count st mod HEARTBEAT_INTERVAL =? 0
        then emit (Heartbeat (fetch_count st))
        else mret tt) ;;
       check_basliks basliks
   end) ;;
  sleep POLL_INTERVAL.

(** One iteration of [while True] with the [except Exception] handler, when
    [fetch_gundem] returns and every [log_message] call of the loop itself
    returns: the handler then writes its line and sleeps.  It is
    [iteration] below at such an input. *)
Definition cycle (basliks : list observation) : loop_state -> loop_state :=
  try_except (poll basliks) (emit UnexpectedError ;; sleep POLL_INTERVAL).

Definition run (cycles : list (list observation)) (st : loop_state) : loop_state :=
  fold_left (fun st basliks => cycle basliks st) cycles st.

(** [monitor_earthquakes()] up to the interrupt that ends it, over the
    fetch results of the cycles it went through, all of them as in
    [cycle]. *)
Definition monitor_earthquakes (cycles : list (list observation)) : loop_state :=
  run cycles initial_state.

(** The body of the [try] in general.  A raising [fetch_gundem] leaves
    [fetch_count += 1] unexecuted; a raising heartbeat [log_message] leaves
    the [for] loop and the sleep unexecuted. *)
Definition poll_with (inp : iteration_input) : M unit :=
  match it_fetch inp with
  | None => raise
  | Some basliks =>
      incr_fetch_count ;;
      (match basliks with
       | [] => mret tt
       | _ :: _ =>
           st ← get;
           (if fetch_count st mod HEARTBEAT_INTERVAL =? 0
            then log_message (it_heartbeat_log inp) (Heartbeat (fetch_count st))
            else mret tt) ;;
           check_basliks basliks
       end) ;;
      sleep POLL_INTERVAL
  end.

(** One iteration of [while True] in general.  An exception of the body
    enters [except Exception]: [log_message], then [time.sleep].  When that
    [log_message] raises, the exception leaves the handler and
    [monitor_earthquakes] with it, before the sleep. *)
Definition iteration (inp : iteration_input) (st : loop_state) : loop_result :=
  match poll_with inp st with
  | (Returned _, st1) => Continues st1
  | (Raised, st1) =>
      match log_message (it_handler_log inp) UnexpectedError st1 with
      | (Returned _, st2) => Continues (snd (sleep POLL_INTERVAL st2))
      | (Raised, st2) => Ends st2
      end
  end.

(** The loop over the iterations it is given, up to the first one that
    ends it. *)
Fixpoint run_until (inputs : list iteration_input) (st : loop_state) : loop_result :=
  match inputs with
  | [] => Continues st
  | inp :: rest =>
      match iteration inp st with
      | Continues st1 => run_until rest st1
      | Ends st1 => Ends st1
      end
  end.

End Loop.

End Detector.
Import Detector.

(* ================================================================== *)
(** * earthquake_detector.py: building the topic list *)
(* ================================================================== *)

(** [fetch_gundem] after the HTTP request and the HTML parser: what they
    give for the page is the argument, and the value returned is modelled
    (the log lines of the function are not). *)

Module Fetch.

(** [s.replace(old, new)]: the occurrences of [old] are replaced from left
    to right, without overlap; [skip] counts the characters of the current
    occurrence still to pass.  An empty [old] occurs before every
    character and at the end. *)
Fixpoint replace_from (old new : str) (skip : nat) (s : str) : str :=
  match s with
  | [] => []
  | c :: s' =>
      match skip with
      | S k => replace_from old new k s'
      | O =>
          if starts_with old s then new ++ replace_from old new (length old - 1) s'
          else c :: replace_from old new 0 s'
      end
  end.

Definition str_replace (old new s : str) : str :=
  match old with
  | [] => new ++ flat_map (fun c => c :: new) s
  | _ :: _ => replace_from old new 0 s
  end.

(** What the HTML parser gives for the anchor of a list item: its text
    ([get_text(strip=True)]), its [href] attribute if it has one, and the
    text of its [small] element if it has one. *)
Record anchor := {
  a_text : str;
  a_href : option str;
  a_small : option str
}.

(** A list item of the topic list: its first anchor, if any, and the
    timestamp read when its entry is built. *)
Record list_item := {
  li_anchor : option anchor;
  li_timestamp : str
}.

(** What a fetch meets: an error of the request or of the parser, a page
    without the topic list, or the items of the topic list. *)
Inductive page :=
| PageRaises
| PageWithoutTopicList
| PageTopics (items : list list_item).

Section Strip.
(** [str.isspace] on one character. *)
Context (isspace : Z -> bool).

Fixpoint lstrip (s : str) : str :=
  match s with
  | [] => []
  | c :: s' => if isspace c then lstrip s' else s
  end.

Definition rstrip (s : str) : str := rev (lstrip (rev s)).

Definition strip (s : str) : str := rstrip (lstrip s).

(** The body of the loop over the list items: the entry appended for an
    item, if any. *)
Definition baslik_of_item (it : list_item) : option Baslik :=
  match li_anchor it with
  | None => None
  | Some a_tag =>
      match a_href a_tag with
      | None => None
      | Some href =>
          if truthy_str href then
            let title := a_text a_tag in
            let '(title, entry_count) :=
              match a_small a_tag with
              | Some entry_count => (strip (str_replace entry_count [] title), entry_count)
              | None => (title, u "0")
              end in
            Some {| title := title; url := href;
                    entry_count := entry_count; timestamp := li_timestamp it |}
          else None
      end
  end.

(** The list [fetch_gundem] returns. *)
Definition fetch_gundem (p : page) : list Baslik :=
  match p with
  | PageRaises => []
  | PageWithoutTopicList => []
  | PageTopics items => omap baslik_of_item items
  end.

End Strip.

End Fetch.
Import Fetch.

(* ================================================================== *)
(** * Vocabulary of the properties *)
(* ================================================================== *)

(** The character before a position reached by reading [pre], when the
    character before [pre] is [prev]. *)
Definition last_or (prev : option Z) (pre : str) : option Z :=
  match last pre with Some c => Some c | None => prev end.

(** The texts the day pattern accepts. *)
Definition day_text (g : str) : bool :=
  match g with
  | [c1] => in_range 49 57 c1
  | [c1; c2] =>
      (in_range 49 50 c1 && in_range 48 57 c2) || ((c1 =? 51) && in_range 48 49 c2)
  | _ => false
  end.

(** The table of the normalizer as a simultaneous substitution. *)
Definition fold_char (c : Z) : Z :=
  match List.find (fun r => c =? fst r) replacements with
  | Some r => snd r
  | None => c
  end.

Section Vocabulary.
Context (U : UnicodeDB).

Definition not_word_before (pre : str) : Prop :=
  match last pre with Some c => is_word U c = false | None => True end.

Definition not_word_after (post : str) : Prop :=
  match post with c :: _ => is_word U c = false | [] => True end.

(** A day token at position [i]: the decimal numeral of an integer of
    [1,31], with no word character right before or right after it. *)
Definition day_token_at (title : str) (i : nat) (n : Z) : Prop :=
  exists pre post,
    title = pre ++ str_of_int n ++ post /\ length pre = i /\
    1 <= n <= 31 /\ not_word_before pre /\ not_word_after post.

Definition is_decimal (c : Z) : bool := bool_decide (is_Some (todecimal U c)).

(** The texts the year pattern accepts. *)
Definition year_text (g : str) : bool :=
  match g with
  | [c1; c2; c3; c4] => (c1 =? 50) && (c2 =? 48) && is_decimal c3 && is_decimal c4
  | _ => false
  end.

(** A year token at position [i]: four decimal digits that read as a year
    of 2000..2099, with no word character right before or right after. *)
Definition year_token_at (title : str) (i : nat) (y : Z) : Prop :=
  exists pre tok post,
    title = pre ++ tok ++ post /\ length pre = i /\
    length tok = 4%nat /\ forallb is_decimal tok = true /\
    int_of_str U tok = y /\ 2000 <= y <= 2099 /\
    not_word_before pre /\ not_word_after post.

Definition substring (w s : str) : Prop := exists pre post, s = pre ++ w ++ post.

Definition has_month_spelling (text : str) : Prop :=
  exists e, In e MONTHS /\ substring (fst e) text.

(** [w] occurs in [s] between two word boundaries. *)
Definition whole_word (w s : str) : Prop :=
  exists pre post,
    s = pre ++ w ++ post /\
    word_boundary U (last pre) (w ++ post) = true /\
    word_boundary U (last (pre ++ w)) post = true.

(** The date fields the detector reads off a title. *)
Definition extract_day (title : str) : option Z :=
  option_map (fun r => int_of_str U (snd r)) (re_search U day_re title).

Definition extract_month (title : str) : option Z :=
  option_map snd (find_month MONTHS (str_lower U title)).

Definition extract_year (title : str) : option Z :=
  option_map (fun r => int_of_str U (snd r)) (re_search U (year_re U) title).

Definition has_keyword (title : str) : Prop :=
  exists kw, In kw EARTHQUAKE_KEYWORDS /\ substring kw (str_lower U title).

Definition recognized_province (title : str) : Prop :=
  exists p, In p PROVINCES /\
    (whole_word p (str_lower U title)
     \/ whole_word (normalize_turkish U p) (normalize_turkish U title)).

(** The province scan, on the normalized title alone. *)
Definition find_province_normalized (title_normalized : str) : option str :=
  List.find
    (fun p => found (re_search U (word_re (normalize_turkish U p)) title_normalized))
    PROVINCES.

End Vocabulary.

(** The dedup set a trace leads to from a given set, when every sink call
    of the trace is for an identity that is not in the set at that moment;
    [None] when some call is for an identity already in it. *)
Fixpoint replay (d : gset str) (t : list event) : option (gset str) :=
  match t with
  | [] => Some d
  | SinkCall _ pm o :: t' =>
      if bool_decide (earthquake_id pm ∈ d) then None
      else replay (match o with
                   | SinkOk => {[ earthquake_id pm ]} ∪ d
                   | SinkRaises => d
                   end) t'
  | _ :: t' => replay d t'
  end.

Definition raising (e : event) : bool :=
  match e with SinkCall _ _ SinkRaises => true | _ => false end.

(** No sink call of the list raises. *)
Definition calm (evs : list event) : Prop :=
  forallb (fun e => negb (raising e)) evs = true.

(** The events a state gained over an earlier one. *)
Definition events_since (st st' : loop_state) : list event :=
  drop (length (trace st)) (trace st').

(** The number of sink calls of a trace for an identity. *)
Definition calls_for (ident : Z * Z * Z * str) (t : list event) : nat :=
  length (List.filter (fun e => match e with
                                | SinkCall _ pm _ => bool_decide (event_identity pm = ident)
                                | _ => false
                                end) t).

Definition heartbeats (t : list event) : list Z :=
  flat_map (fun e => match e with Heartbeat k => [k] | _ => [] end) t.


Definition heartbeat_events (k : Z) : list event :=
  if k mod HEARTBEAT_INTERVAL =? 0 then [Heartbeat k] else [].

Definition beat (basliks : list observation) (k : Z) : list Z :=
  match basliks with
  | [] => []
  | _ :: _ => heartbeats (heartbeat_events k)
  end.

(** ** Example data *)

Definition at_time (y m d h mi : Z) : datetime := DateTime (Date y m d) h mi 0 0.

Definition at_noon (y m d : Z) : datetime := at_time y m d 12 0.

Local Open Scope string_scope.

Definition istanbul_baslik : Baslik :=
  {| title := u "22 ekim 2025 istanbul depremi";
     url := u "/22-ekim-2025-istanbul-depremi--1";
     entry_count := u "5";
     timestamp := u "2025-10-22T12:00:00" |}.

Definition mardin_baslik : Baslik :=
  {| title := u "21 ekim 2025 mardin depremi";
     url := u "/21-ekim-2025-mardin-depremi--3";
     entry_count := u "7";
     timestamp := u "2025-10-22T12:00:00" |}.

Definition quiet_baslik : Baslik :=
  {| title := u "gram altın";
     url := u "/gram-altin--2";
     entry_count := u "12";
     timestamp := u "2025-10-22T12:00:00" |}.

(** A topic met on 22 October 2025, with what the sink does for it. *)
Definition seen (b : Baslik) (o : sink_outcome) : observation :=
  {| o_baslik := b; o_now := at_noon 2025 10 22; o_sink := o |}.

Definition istanbul_candidate : Candidate :=
  {| c_day := 22; c_month := 10; c_month_name := u "ekim"; c_year := 2025;
     c_province := u "istanbul"; c_has_earthquake_keyword := true;
     c_confidence := high |}.

Definition mardin_candidate : Candidate :=
  {| c_day := 21; c_month := 10; c_month_name := u "ekim"; c_year := 2025;
     c_province := u "mardin"; c_has_earthquake_keyword := true;
     c_confidence := high |}.

Definition hakkari_accented : str := u "6 şubat 2025 hakkâri depremi".
Definition hakkari_folded : str := u "6 şubat 2025 hakkari depremi".
Definition maras_accented : str := u "6 şubat 2025 kahramanmaraş depremi".
Definition maras_folded : str := u "6 subat 2025 kahramanmaras depremi".
Definition unrelated_number_first : str := u "3 gün sonra 22 ekim 2025 istanbul depremi".

Local Close Scope string_scope.

(** ** Vocabulary of the further properties *)

(** The ASCII variants of [PROVINCES] that come after an entry with the
    same normalized spelling. *)
Definition shadowed_provinces : list str := map u [
    "adiyaman"; "agri"; "aydin"; "balikesir"; "bartin"; "bingol"; "canakkale";
    "cankiri"; "corum"; "diyarbakir"; "duzce"; "elazig"; "gumushane"; "igdir";
    "kahramanmaras"; "karabuk"; "kirikkale"; "kirklareli"; "kirsehir";
    "kutahya"; "mugla"; "mus"; "nigde"; "sanliurfa"; "sirnak"; "tekirdag"
  ]%string.

(** [x] is the first element of [l] with its key. *)
Fixpoint first_of_key (key : str -> str) (l : list str) (x : str) : bool :=
  match l with
  | [] => false
  | a :: l' =>
      if bool_decide (key a = key x) then bool_decide (a = x)
      else first_of_key key l' x
  end.

(** The day after the last day of month [m] of year [y]. *)
Definition next_month_start (y m : Z) : date :=
  if m =? 12 then Date (y + 1) 1 1 else Date y (m + 1) 1.

(** The seconds slept, in order. *)
Definition sleeps (t : list event) : list Z :=
  flat_map (fun e => match e with Sleep s => [s] | _ => [] end) t.

(** The Event Sink returns for every topic of the cycle. *)
Definition sink_always_returns (basliks : list observation) : Prop :=
  forall ob, In ob basliks -> o_sink ob = SinkOk.

Section Provenance.
Context (U : UnicodeDB).

(** The event is a sink call for a topic of the cycle, with the candidate
    the detector returns for that topic. *)
Definition call_from_topic (basliks : list observation) (e : event) : Prop :=
  match e with
  | SinkCall b pm o =>
      exists ob,
        In ob basliks /\ o_baslik ob = b /\ o_sink ob = o /\
        is_earthquake_baslik U (o_now ob) (title b) = Some pm
  | _ => False
  end.

(** The topic yields a candidate. *)
Definition detected_in (basliks : list observation) (pm : Candidate) : Prop :=
  exists ob,
    In ob basliks /\
    is_earthquake_baslik U (o_now ob) (title (o_baslik ob)) = Some pm.

End Provenance.

(** The heartbeat events of a cycle that fetched [basliks]. *)
Definition cycle_heartbeat (basliks : list observation) (k : Z) : list event :=
  match basliks with [] => [] | _ :: _ => heartbeat_events k end.

(** An iteration whose fetch returned [basliks] and in which every
    [log_message] call of the loop returns. *)
Definition logged (basliks : list observation) : iteration_input :=
  {| it_fetch := Some basliks; it_heartbeat_log := LogOk; it_handler_log := LogOk |}.

(** The iterations in which [fetch_gundem] returned. *)
Definition fetches_returned (inputs : list iteration_input) : nat :=
  length (List.filter (fun inp => match it_fetch inp with Some _ => true | None => false end)
                      inputs).


(** White space among the code points below U+0180. *)
Definition latin_isspace (c : Z) : bool :=
  in_range 9 13 c || in_range 28 32 c || (c =? 133) || (c =? 160).

(* ================================================================== *)
(** * The Latin table is a Unicode database *)
(* ================================================================== *)

Ltac bool_to_Z :=
  unfold latin_letter, lower_stable, latin_isalnum, ascii_digit, memZ, turkish_letters, in_range in *;
  cbn [existsb] in *;
  repeat match goal with
  | H : _ && _ = true |- _ => apply andb_true_iff in H; destruct H
  | H : _ || _ = true |- _ => apply orb_true_iff in H; destruct H
  | H : negb _ = true |- _ => apply negb_true_iff in H
  | H : false = true |- _ => discriminate H
  | H : (_ <=? _) = true |- _ => apply Z.leb_le in H
  | H : (_ <=? _) = false |- _ => apply Z.leb_gt in H
  | H : (_ =? _) = true |- _ => apply Z.eqb_eq in H
  | H : (_ =? _) = false |- _ => apply Z.eqb_neq in H
  end.

Lemma in_range_spec lo hi c : in_range lo hi c = true <-> lo <= c <= hi.
Proof. unfold in_range. rewrite andb_true_iff, !Z.leb_le. tauto. Qed.

Lemma latin_lower_cp_stable c : lower_stable c = true -> latin_lower_cp c = [c].
Proof.
  intros H. bool_to_Z; try subst c; try reflexivity.
  unfold latin_lower_cp, in_range.
  repeat match goal with
  | |- context [?a <=? ?b] => destruct (Z.leb_spec a b); try lia
  | |- context [?a =? ?b] => destruct (Z.eqb_spec a b); try lia
  end; cbn; try reflexivity.
Qed.

Lemma latin_lower_fixed s : forallb lower_stable s = true -> latin_lower s = s.
Proof.
  induction s as [|c s IH]; cbn; [reflexivity|].
  intros H. apply andb_true_iff in H as [Hc Hs].
  rewrite latin_lower_cp_stable by exact Hc. cbn. f_equal. exact (IH Hs).
Qed.

Lemma latin_todecimal_ascii c :
  ascii_digit c = true -> latin_todecimal c = Some (c - 48).
Proof. intros H. unfold latin_todecimal. rewrite H. reflexivity. Qed.

Lemma latin_todecimal_range c v : latin_todecimal c = Some v -> 0 <= v <= 9.
Proof.
  unfold latin_todecimal. destruct (ascii_digit c) eqn:E; [|discriminate].
  intros [= <-]. bool_to_Z. lia.
Qed.

Lemma latin_todecimal_isalnum c v : latin_todecimal c = Some v -> latin_isalnum c = true.
Proof.
  unfold latin_todecimal. destruct (ascii_digit c) eqn:E; [|discriminate].
  intros _. unfold latin_isalnum. unfold ascii_digit in E. rewrite E. reflexivity.
Qed.

Lemma latin_isalnum_latin c : latin_letter c = true -> latin_isalnum c = true.
Proof.
  intros H. unfold latin_letter in H.
  apply orb_true_iff in H as [H|H]; [apply orb_true_iff in H as [H|H]|].
  - unfold latin_isalnum. rewrite H. rewrite !orb_true_r. reflexivity.
  - unfold latin_isalnum. rewrite H. rewrite !orb_true_r. reflexivity.
  - bool_to_Z; subst c; reflexivity.
Qed.

Definition latin_db : UnicodeDB := {|
  str_lower := latin_lower;
  isalnum := latin_isalnum;
  todecimal := latin_todecimal;
  todecimal_ascii := latin_todecimal_ascii;
  todecimal_range := latin_todecimal_range;
  todecimal_isalnum := latin_todecimal_isalnum;
  isalnum_latin := latin_isalnum_latin;
  str_lower_fixed := latin_lower_fixed
|}.
(* ================================================================== *)
(** * Facts about the matcher, the detector and the loop *)
(* ================================================================== *)

Ltac enum_Z c lo n :=
  lazymatch n with
  | O => exfalso; lia
  | S ?n' =>
      destruct (Z.eq_dec c lo) as [->|?];
      [| let lo' := eval compute in (lo + 1) in enum_Z c lo' n']
  end.

Section Facts.
Context (U : UnicodeDB).

(** ** Searching *)

Lemma last_or_cons prev c pre : last_or prev (c :: pre) = last_or (Some c) pre.
Proof. unfold last_or. rewrite last_cons. destruct (last pre); reflexivity. Qed.

Lemma last_or_None pre : last_or None pre = last pre.
Proof. unfold last_or. destruct (last pre); reflexivity. Qed.

Lemma last_or_app prev a b : last_or prev (a ++ b) = last_or (last_or prev a) b.
Proof.
  revert prev. induction a as [|c a IH]; intros prev; [reflexivity|].
  cbn [app]. rewrite !last_or_cons. apply IH.
Qed.

Lemma search_from_eq r prev s i :
  search_from U r prev s i =
  match match_at U r prev s with
  | Some g => Some (i, g)
  | None => match s with
            | [] => None
            | c :: s' => search_from U r (Some c) s' (S i)
            end
  end.
Proof. destruct s; reflexivity. Qed.

(** A successful search stops at the leftmost position where the pattern
    matches. *)
Lemma search_from_some r prev s i k g :
  search_from U r prev s i = Some (k, g) ->
  exists pre post,
    s = pre ++ post /\ k = (i + length pre)%nat /\
    match_at U r (last_or prev pre) post = Some g /\
    forall pre' post', s = pre' ++ post' -> (length pre' < length pre)%nat ->
      match_at U r (last_or prev pre') post' = None.
Proof.
  revert prev i. induction s as [|c s IH]; intros prev i H;
    rewrite search_from_eq in H; destruct (match_at U r prev _) eqn:E.
  - injection H as <- <-. exists [], []. repeat split; auto.
    intros ? ? _ Hlt. cbn in Hlt. lia.
  - discriminate.
  - injection H as <- <-. exists [], (c :: s). repeat split; auto.
    intros ? ? _ Hlt. cbn in Hlt. lia.
  - apply IH in H as (pre & post & -> & -> & Hm & Hmin).
    exists (c :: pre), post. rewrite last_or_cons. cbn [length app].
    split; [reflexivity|]. split; [lia|]. split; [exact Hm|].
    intros pre' post' Heq Hlt. destruct pre' as [|c' pre'].
    + cbn in Heq. subst post'. exact E.
    + cbn in Heq. injection Heq as <- Heq. rewrite last_or_cons.
      apply Hmin; [exact Heq | cbn in Hlt; lia].
Qed.

(** A failed search means the pattern matches at no position. *)
Lemma search_from_none r prev s i :
  search_from U r prev s i = None ->
  forall pre post, s = pre ++ post -> match_at U r (last_or prev pre) post = None.
Proof.
  revert prev i. induction s as [|c s IH]; intros prev i H pre post Heq;
    rewrite search_from_eq in H; destruct (match_at U r prev _) eqn:E; try discriminate.
  - symmetry in Heq. apply app_eq_nil in Heq as [-> ->]. exact E.
  - destruct pre as [|c' pre].
    + cbn in Heq. subst post. exact E.
    + cbn in Heq. injection Heq as <- Heq. rewrite last_or_cons.
      eapply IH; eauto.
Qed.

Lemma re_search_some r s k g :
  re_search U r s = Some (k, g) ->
  exists pre post,
    s = pre ++ post /\ length pre = k /\
    match_at U r (last pre) post = Some g /\
    forall pre' post', s = pre' ++ post' -> (length pre' < k)%nat ->
      match_at U r (last pre') post' = None.
Proof.
  intros H. apply search_from_some in H as (pre & post & -> & -> & Hm & Hmin).
  exists pre, post. rewrite last_or_None in Hm. repeat split; auto.
  intros pre' post' Heq Hlt. rewrite <- last_or_None. apply Hmin; auto.
Qed.

Lemma re_search_none r s :
  re_search U r s = None ->
  forall pre post, s = pre ++ post -> match_at U r (last pre) post = None.
Proof.
  intros H pre post Heq. rewrite <- last_or_None. eapply search_from_none; eauto.
Qed.

Lemma re_search_found r s pre post g :
  s = pre ++ post -> match_at U r (last pre) post = Some g ->
  exists k g', re_search U r s = Some (k, g').
Proof.
  intros Heq Hm. destruct (re_search U r s) as [[k g']|] eqn:E; [eauto|].
  rewrite (re_search_none _ _ E _ _ Heq) in Hm. discriminate.
Qed.


Lemma is_word_digit c : ascii_digit c = true -> is_word U c = true.
Proof.
  intros H. unfold is_word.
  rewrite (todecimal_isalnum U c _ (todecimal_ascii U c H)). reflexivity.
Qed.

Lemma boundary_before_word pre c rest :
  is_word U c = true ->
  word_boundary U (last pre) (c :: rest) = true <-> not_word_before U pre.
Proof.
  intros Hc. unfold word_boundary, not_word_before. rewrite Hc.
  destruct (last pre) as [p|]; [|tauto].
  destruct (is_word U p); cbn; split; congruence.
Qed.

Lemma boundary_after_word c post :
  is_word U c = true ->
  word_boundary U (Some c) post = true <-> not_word_after U post.
Proof.
  intros Hc. unfold word_boundary, not_word_after. rewrite Hc.
  destruct post as [|p post]; [tauto|].
  destruct (is_word U p); cbn; split; congruence.
Qed.

Lemma no_boundary_between_words c1 c2 rest :
  is_word U c1 = true -> is_word U c2 = true ->
  word_boundary U (Some c1) (c2 :: rest) = false.
Proof. intros H1 H2. unfold word_boundary. rewrite H1, H2. reflexivity. Qed.

Lemma day_text_digits g : day_text g = true -> forallb ascii_digit g = true.
Proof.
  destruct g as [|c1 [|c2 [|? ?]]]; cbn; try discriminate; intros H.
  - bool_to_Z. rewrite andb_true_r. apply in_range_spec. lia.
  - rewrite andb_true_r. apply andb_true_iff.
    bool_to_Z; split; apply in_range_spec; lia.
Qed.

(** What one attempt of the day pattern at a position yields. *)
Lemma match_at_day_sound prev s g :
  match_at U day_re prev s = Some g ->
  word_boundary U prev s = true /\ day_text g = true /\
  exists post, s = g ++ post /\ word_boundary U (last g) post = true.
Proof.
  unfold match_at, day_re. cbn. intros H.
  repeat case_match; simplify_eq; (split; [reflexivity|]); cbn;
    (split; [ | eexists; split; [reflexivity|assumption]]);
    repeat match goal with H : _ = true |- _ => rewrite H end; auto using orb_true_r.
Qed.

Lemma match_at_day_complete prev g post :
  word_boundary U prev (g ++ post) = true -> day_text g = true ->
  word_boundary U (last g) post = true ->
  match_at U day_re prev (g ++ post) = Some g.
Proof.
  intros Hb Hg Ha. pose proof (day_text_digits g Hg) as Hd.
  unfold match_at, day_re. cbn. rewrite Hb.
  destruct g as [|c1 [|c2 [|? ?]]]; cbn in Hg, Hd, Ha |- *; try discriminate.
  - rewrite Hg, Ha. reflexivity.
  - apply andb_true_iff in Hd as [Hd1 Hd2]. rewrite andb_true_r in Hd2.
    rewrite (no_boundary_between_words c1 c2 post) by auto using is_word_digit.
    rewrite Ha.
    apply orb_true_iff in Hg as [Hg|Hg]; apply andb_true_iff in Hg as [Hg1 Hg2];
      rewrite ?Hg1, ?Hg2.
    + destruct (in_range 49 57 c1); reflexivity.
    + unfold ascii_digit in Hd2.
      destruct (in_range 49 57 c1); destruct (in_range 49 50 c1); cbn;
        rewrite ?Hd2, ?Ha; reflexivity.
Qed.

Lemma int_of_str_1 c : ascii_digit c = true -> int_of_str U [c] = c - 48.
Proof. intros H. unfold int_of_str. cbn. rewrite (todecimal_ascii U c H). reflexivity. Qed.

Lemma int_of_str_2 c1 c2 :
  ascii_digit c1 = true -> ascii_digit c2 = true ->
  int_of_str U [c1; c2] = (c1 - 48) * 10 + (c2 - 48).
Proof.
  intros H1 H2. unfold int_of_str. cbn.
  rewrite (todecimal_ascii U c1 H1), (todecimal_ascii U c2 H2). reflexivity.
Qed.

(** The texts the day pattern captures are the decimal numerals of 1..31. *)
Lemma day_text_numeral g :
  day_text g = true ->
  exists n, 1 <= n <= 31 /\ g = str_of_int n /\ int_of_str U g = n.
Proof.
  intros Hg. pose proof (day_text_digits g Hg) as Hd.
  destruct g as [|c1 [|c2 [|? ?]]]; cbn in Hg, Hd; try discriminate.
  - rewrite andb_true_r in Hd. exists (c1 - 48). rewrite (int_of_str_1 c1 Hd).
    apply in_range_spec in Hg.
    split; [lia|]. split; [|reflexivity].
    enum_Z c1 49 9%nat; reflexivity.
  - apply andb_true_iff in Hd as [Hd1 Hd2]. rewrite andb_true_r in Hd2.
    exists ((c1 - 48) * 10 + (c2 - 48)). rewrite (int_of_str_2 c1 c2 Hd1 Hd2).
    assert (Hr : (49 <= c1 <= 50 /\ 48 <= c2 <= 57) \/ (c1 = 51 /\ 48 <= c2 <= 49)).
    { bool_to_Z; lia. }
    split; [lia|]. split; [|reflexivity].
    destruct Hr as [[H1 H2]|[-> H2]].
    + enum_Z c1 49 2%nat; enum_Z c2 48 10%nat; reflexivity.
    + enum_Z c2 48 2%nat; reflexivity.
Qed.

Lemma numeral_day_text n : 1 <= n <= 31 -> day_text (str_of_int n) = true.
Proof. intros H. enum_Z n 1 31%nat; reflexivity. Qed.

Lemma str_of_int_day_inj n m :
  1 <= n <= 31 -> 1 <= m <= 31 -> str_of_int n = str_of_int m -> n = m.
Proof.
  intros Hn Hm Heq.
  assert (int_of_str U (str_of_int n) = n).
  { enum_Z n 1 31%nat; apply int_of_str_1 || apply int_of_str_2; reflexivity. }
  assert (int_of_str U (str_of_int m) = m).
  { enum_Z m 1 31%nat; apply int_of_str_1 || apply int_of_str_2; reflexivity. }
  congruence.
Qed.


Lemma day_token_match pre post n :
  1 <= n <= 31 -> not_word_before U pre -> not_word_after U post ->
  match_at U day_re (last pre) (str_of_int n ++ post) = Some (str_of_int n).
Proof.
  intros Hn Hpre Hpost. pose proof (numeral_day_text n Hn) as Hg.
  pose proof (day_text_digits _ Hg) as Hd.
  apply match_at_day_complete; [|exact Hg|].
  - destruct (str_of_int n) as [|c1 g]; [discriminate|]. cbn in Hd |- *.
    apply andb_true_iff in Hd as [Hd _].
    apply boundary_before_word; auto using is_word_digit.
  - destruct (str_of_int n) as [|c1 [|c2 [|? ?]]]; try discriminate; cbn in Hd |- *.
    + apply andb_true_iff in Hd as [Hd _].
      apply boundary_after_word; auto using is_word_digit.
    + apply andb_true_iff in Hd as [_ Hd]. apply andb_true_iff in Hd as [Hd _].
      apply boundary_after_word; auto using is_word_digit.
Qed.

(** The day the search extracts is the value of the leftmost day token,
    and no other token starts at that position. *)
Lemma extract_day_some title i g :
  re_search U day_re title = Some (i, g) ->
  day_token_at U title i (int_of_str U g) /\
  forall j m, day_token_at U title j m ->
    (i <= j)%nat /\ (j = i -> m = int_of_str U g).
Proof.
  intros H. apply re_search_some in H as (pre & post & -> & <- & Hm & Hmin).
  pose proof Hm as Hm'.
  apply match_at_day_sound in Hm' as (Hb & Hg & post' & -> & Ha).
  destruct (day_text_numeral g Hg) as (n & Hn & -> & ->).
  pose proof (day_text_digits _ Hg) as Hd.
  split.
  - exists pre, post'. repeat (split; [reflexivity || assumption|]). split.
    + destruct (str_of_int n) as [|c1 g]; [discriminate|]. cbn in Hd, Hb.
      apply andb_true_iff in Hd as [Hd _].
      eapply boundary_before_word; eauto using is_word_digit.
    + destruct (str_of_int n) as [|c1 [|c2 [|? ?]]]; try discriminate; cbn in Hd, Ha.
      * apply andb_true_iff in Hd as [Hd _].
        eapply boundary_after_word; eauto using is_word_digit.
      * apply andb_true_iff in Hd as [_ Hd]. apply andb_true_iff in Hd as [Hd _].
        eapply boundary_after_word; eauto using is_word_digit.
  - intros j m (pre2 & post2 & Heq & <- & Hm2 & Hpre2 & Hpost2).
    pose proof (day_token_match pre2 post2 m Hm2 Hpre2 Hpost2) as Hc.
    split.
    + destruct (Nat.le_gt_cases (length pre) (length pre2)) as [|Hlt]; [assumption|].
      rewrite (Hmin _ _ Heq Hlt) in Hc. discriminate.
    + intros Hlen. apply app_inj_1 in Heq as [<- Heq]; [|congruence].
      rewrite Heq, Hc in Hm. injection Hm as Hm.
      symmetry. eapply str_of_int_day_inj; eauto.
Qed.

Lemma extract_day_none title :
  re_search U day_re title = None -> forall j m, ~ day_token_at U title j m.
Proof.
  intros H j m (pre & post & Heq & _ & Hm & Hpre & Hpost).
  pose proof (day_token_match pre post m Hm Hpre Hpost) as Hc.
  rewrite (re_search_none _ _ H _ _ Heq) in Hc. discriminate.
Qed.

Lemma is_word_decimal c : is_decimal U c = true -> is_word U c = true.
Proof.
  unfold is_decimal. intros H. apply bool_decide_eq_true in H as [v Hv].
  unfold is_word. rewrite (todecimal_isalnum U c v Hv). reflexivity.
Qed.

Lemma match_at_year_sound prev s g :
  match_at U (year_re U) prev s = Some g ->
  word_boundary U prev s = true /\ year_text U g = true /\
  exists post, s = g ++ post /\ word_boundary U (last g) post = true.
Proof.
  unfold match_at, year_re, re_digit. cbn. intros H.
  repeat case_match; simplify_eq. split; [reflexivity|]. split.
  - unfold year_text, is_decimal.
    repeat match goal with H : _ = true |- _ => rewrite H end. reflexivity.
  - eexists; split; [reflexivity|assumption].
Qed.

Lemma year_text_value g :
  year_text U g = true ->
  length g = 4%nat /\ forallb (is_decimal U) g = true /\
  2000 <= int_of_str U g <= 2099.
Proof.
  destruct g as [|c1 [|c2 [|c3 [|c4 [|? ?]]]]]; cbn; try discriminate.
  intros H. repeat (apply andb_true_iff in H as [H ?]).
  apply Z.eqb_eq in H. subst c1.
  match goal with H : (c2 =? 48) = true |- _ => apply Z.eqb_eq in H; subst c2 end.
  split; [reflexivity|]. split.
  - repeat (apply andb_true_iff; split); auto;
      unfold is_decimal; apply bool_decide_eq_true;
      rewrite (todecimal_ascii U) by reflexivity; eauto.
  - unfold int_of_str. cbn. rewrite !(todecimal_ascii U) by reflexivity.
    repeat match goal with
    | H : is_decimal U ?c = true |- _ =>
        apply bool_decide_eq_true in H as [? H];
        pose proof (todecimal_range U _ _ H); rewrite H
    end. cbn. lia.
Qed.

Lemma extract_year_some title i g :
  re_search U (year_re U) title = Some (i, g) ->
  year_token_at U title i (int_of_str U g).
Proof.
  intros H. apply re_search_some in H as (pre & post & -> & <- & Hm & _).
  apply match_at_year_sound in Hm as (Hb & Hg & post' & -> & Ha).
  destruct (year_text_value g Hg) as (Hlen & Hd & Hr).
  exists pre, g, post'. repeat (split; [reflexivity || assumption|]).
  destruct g as [|c1 [|c2 [|c3 [|c4 [|? ?]]]]]; try discriminate.
  cbn in Hd, Hb, Ha.
  apply andb_true_iff in Hd as [Hd1 Hd]. apply andb_true_iff in Hd as [_ Hd].
  apply andb_true_iff in Hd as [_ Hd]. apply andb_true_iff in Hd as [Hd4 _].
  split.
  - exact (proj1 (boundary_before_word pre c1 _ (is_word_decimal _ Hd1)) Hb).
  - exact (proj1 (boundary_after_word c4 post' (is_word_decimal _ Hd4)) Ha).
Qed.

Lemma starts_with_spec w s : starts_with w s = true <-> exists post, s = w ++ post.
Proof.
  revert s. induction w as [|a w IH]; intros s; cbn.
  - split; eauto.
  - destruct s as [|b s]; [split; [discriminate|intros [? ?]; discriminate]|].
    rewrite andb_true_iff, Z.eqb_eq, IH. split.
    + intros [-> [post ->]]. eauto.
    + intros [post [= -> ->]]. eauto.
Qed.

Lemma str_contains_spec w s : str_contains w s = true <-> substring w s.
Proof.
  unfold substring. induction s as [|b s IH]; cbn [str_contains].
  - rewrite orb_false_r, starts_with_spec. split.
    + intros [post H]. exists [], post. exact H.
    + intros (pre & post & H). destruct pre; [eauto|discriminate].
  - rewrite orb_true_iff, starts_with_spec, IH. split.
    + intros [[post H]|(pre & post & H)].
      * exists [], post. exact H.
      * exists (b :: pre), post. cbn. congruence.
    + intros (pre & post & H). destruct pre as [|b' pre]; [left; eauto|].
      right. cbn in H. injection H as <- ->. eauto.
Qed.


Lemma rmatch_lits {A} w st (k : mstate -> option A) :
  rmatch U (lits w) st k =
  if starts_with w (m_rest st)
  then k (MState (last_or (m_prev st) w) (drop (length w) (m_rest st))
                 (m_taken st ++ w) (m_group st))
  else None.
Proof.
  revert st. induction w as [|c w IH]; intros [prev rest taken group]; cbn.
  - rewrite app_nil_r. reflexivity.
  - destruct rest as [|x rest]; [reflexivity|]. rewrite (Z.eqb_sym c x).
    destruct (Z.eqb_spec x c) as [->|?]; [|reflexivity]. cbn. rewrite IH. cbn.
    rewrite last_or_cons, <- app_assoc. reflexivity.
Qed.

Lemma match_at_word w prev s :
  is_Some (match_at U (word_re w) prev s) <->
  word_boundary U prev s = true /\
  exists post, s = w ++ post /\ word_boundary U (last_or prev w) post = true.
Proof.
  unfold match_at, word_re. cbn [rmatch]. rewrite rmatch_lits. cbn.
  destruct (word_boundary U prev s); [|split; [intros [? ?]|intros [? _]]; discriminate].
  destruct (starts_with w s) eqn:Hs.
  - apply starts_with_spec in Hs as [post ->]. rewrite drop_app_length.
    destruct (word_boundary U (last_or prev w) post) eqn:Hb.
    + split; [|eauto]. intros _. split; [reflexivity|]. eauto.
    + split; [intros [? ?]; discriminate|].
      intros [_ (post' & Heq & Hb')]. apply app_inv_head in Heq. subst post'.
      congruence.
  - split; [intros [? ?]; discriminate|].
    intros [_ (post & -> & _)].
    assert (starts_with w (w ++ post) = true) by (apply starts_with_spec; eauto).
    congruence.
Qed.

(** The province pattern is found exactly when the name occurs between
    two word boundaries. *)
Lemma search_word_spec w s :
  found (re_search U (word_re w) s) = true <-> whole_word U w s.
Proof.
  unfold whole_word. split.
  - destruct (re_search U (word_re w) s) as [[k g]|] eqn:E; [|discriminate].
    intros _. apply re_search_some in E as (pre & post & -> & _ & Hm & _).
    assert (Hs : is_Some (match_at U (word_re w) (last pre) post)) by eauto.
    apply match_at_word in Hs as (Hb & post' & -> & Ha).
    exists pre, post'. repeat split; auto.
    rewrite <- last_or_None, last_or_app, last_or_None. exact Ha.
  - intros (pre & post & -> & Hb & Ha).
    assert (Hs : is_Some (match_at U (word_re w) (last pre) (w ++ post))).
    { apply match_at_word. split; [exact Hb|]. exists post. split; [reflexivity|].
      rewrite <- last_or_None, last_or_app, last_or_None in Ha. exact Ha. }
    destruct Hs as [g Hg].
    destruct (re_search_found _ _ _ _ _ eq_refl Hg) as (k & g' & ->). reflexivity.
Qed.

(** ** The normalizer *)

Lemma fold_replace_map (rs : list (Z * Z)) (s : str) :
  fold_left (fun n r => replace_char (fst r) (snd r) n) rs s =
  map (fun c => fold_left (fun c r => if c =? fst r then snd r else c) rs c) s.
Proof.
  revert s. induction rs as [|r rs IH]; intros s; cbn.
  - symmetry. apply map_id.
  - rewrite IH. unfold replace_char. rewrite map_map. reflexivity.
Qed.

Lemma replacements_codes :
  replacements =
  [(305, 105); (287, 103); (252, 117); (351, 115); (246, 111); (231, 99);
   (304, 105); (286, 103); (220, 117); (350, 115); (214, 111); (199, 99)].
Proof. vm_compute. reflexivity. Qed.

Lemma replacements_sequential c :
  fold_left (fun c r => if c =? fst r then snd r else c) replacements c = fold_char c.
Proof.
  unfold fold_char. rewrite replacements_codes. cbn.
  repeat match goal with
  | |- context [c =? ?k] =>
      destruct (Z.eqb_spec c k) as [->|?]; [reflexivity|]
  end.
  reflexivity.
Qed.

Lemma normalize_turkish_map text :
  normalize_turkish U text = map fold_char (str_lower U text).
Proof.
  unfold normalize_turkish. rewrite fold_replace_map.
  apply map_ext. exact replacements_sequential.
Qed.

Lemma is_word_fold_char c : is_word U (fold_char c) = is_word U c.
Proof.
  unfold fold_char. rewrite replacements_codes. cbn.
  repeat match goal with
  | |- context [c =? ?k] =>
      destruct (Z.eqb_spec c k) as [->|?];
      [cbn; unfold is_word; rewrite !(isalnum_latin U) by reflexivity; reflexivity|]
  end.
  reflexivity.
Qed.

Lemma word_boundary_map f prev rest :
  (forall c, is_word U (f c) = is_word U c) ->
  word_boundary U (f <$> prev) (map f rest) = word_boundary U prev rest.
Proof.
  intros Hf. unfold word_boundary.
  destruct prev, rest; cbn; rewrite ?Hf; reflexivity.
Qed.

Lemma whole_word_map f w s :
  (forall c, is_word U (f c) = is_word U c) ->
  whole_word U w s -> whole_word U (map f w) (map f s).
Proof.
  intros Hf (pre & post & -> & Hb & Ha).
  exists (map f pre), (map f post). rewrite !map_app. split; [reflexivity|].
  rewrite <- !map_app.
  change (@map Z Z f) with (@fmap list _ Z Z f). rewrite !fmap_last.
  change (@fmap list _ Z Z f) with (@map Z Z f).
  rewrite !word_boundary_map by exact Hf. auto.
Qed.


(** ** The detector *)

Lemma provinces_nonempty : forallb truthy_str PROVINCES = true.
Proof. vm_compute. reflexivity. Qed.

Lemma provinces_lower_stable : forallb (forallb lower_stable) PROVINCES = true.
Proof. vm_compute. reflexivity. Qed.

Lemma months_nonzero : forallb (fun e => negb (snd e =? 0)) MONTHS = true.
Proof. vm_compute. reflexivity. Qed.

Lemma find_month_nonzero text name m :
  find_month MONTHS text = Some (name, m) -> (m =? 0) = false.
Proof.
  intros H. apply find_some in H as [Hin _].
  pose proof (proj1 (forallb_forall _ _) months_nonzero _ Hin) as Hz.
  cbn in Hz. apply negb_true_iff in Hz. exact Hz.
Qed.

Lemma find_province_truthy tl tn p :
  find_province U tl tn = Some p -> truthy_str p = true.
Proof.
  intros H. apply find_some in H as [Hin _].
  exact (proj1 (forallb_forall _ _) provinces_nonempty _ Hin).
Qed.

Lemma find_ext_in {A} (f g : A -> bool) l :
  (forall x, In x l -> f x = g x) -> List.find f l = List.find g l.
Proof.
  induction l as [|a l IH]; intros H; cbn; [reflexivity|].
  rewrite <- (H a) by (left; reflexivity).
  destruct (f a); [reflexivity|]. apply IH. intros x Hx. apply H. right. exact Hx.
Qed.

(** A province whose name is found in the lowercased title is also found,
    in its normalized spelling, in the normalized title. *)
Lemma province_matches_normalized title p :
  forallb lower_stable p = true ->
  province_matches U (str_lower U title) (normalize_turkish U title) p =
  found (re_search U (word_re (normalize_turkish U p)) (normalize_turkish U title)).
Proof.
  intros Hp. unfold province_matches.
  destruct (found (re_search U (word_re p) (str_lower U title))) eqn:E; [|reflexivity].
  cbn [orb]. symmetry. apply search_word_spec. apply search_word_spec in E.
  rewrite !normalize_turkish_map, (str_lower_fixed U p Hp).
  apply whole_word_map; [apply is_word_fold_char | exact E].
Qed.

Lemma find_province_normalized_eq title :
  find_province U (str_lower U title) (normalize_turkish U title) =
  find_province_normalized U (normalize_turkish U title).
Proof.
  unfold find_province, find_province_normalized. apply find_ext_in.
  intros p Hp. apply province_matches_normalized.
  exact (proj1 (forallb_forall _ _) provinces_lower_stable _ Hp).
Qed.

(** The identity of the detector's result, from the extracted fields. *)
Lemma detect_identity now title :
  option_map event_identity (is_earthquake_baslik U now title) =
  match extract_day U title with None => None | Some d =>
  match extract_month U title with None => None | Some m =>
  match extract_year U title with None => None | Some y =>
  if is_date_current now d m y 1 then
    match find_province_normalized U (normalize_turkish U title) with
    | None => None
    | Some p => Some (d, m, y, p)
    end
  else None
  end end end.
Proof.
  unfold is_earthquake_baslik, extract_day, extract_month, extract_year, option_map.
  destruct (re_search U day_re title) as [[i dt]|]; [|reflexivity]. cbn [snd].
  destruct (find_month MONTHS (str_lower U title)) as [[name m]|] eqn:Em; [|reflexivity].
  cbn [snd]. rewrite (find_month_nonzero _ _ _ Em).
  destruct (re_search U (year_re U) title) as [[j yt]|]; [|reflexivity]. cbn [snd].
  destruct (is_date_current now _ m _ 1); [|reflexivity]. cbn [negb].
  rewrite <- find_province_normalized_eq.
  destruct (find_province U _ _) as [p|] eqn:Ep; [|reflexivity].
  rewrite (find_province_truthy _ _ _ Ep). reflexivity.
Qed.

Lemma is_date_current_spec now d m y :
  is_date_current now d m y 1 = true <->
  check_date_fields y m d = true /\ Z.abs (days_between (Date y m d) (dt_date now)) <= 1.
Proof.
  unfold is_date_current, datetime_new.
  destruct (check_date_fields y m d); cbn [dt_date].
  - rewrite Z.leb_le. tauto.
  - split; [discriminate|]. intros [? _]. discriminate.
Qed.

Lemma has_keyword_spec title :
  existsb (fun kw => str_contains kw (str_lower U title)) EARTHQUAKE_KEYWORDS = true
  <-> has_keyword U title.
Proof.
  unfold has_keyword. rewrite existsb_exists.
  split; intros (kw & Hin & H); exists kw; (split; [exact Hin|]);
    apply str_contains_spec; exact H.
Qed.

Lemma recognized_province_found title :
  recognized_province U title ->
  exists p, find_province U (str_lower U title) (normalize_turkish U title) = Some p.
Proof.
  intros (p & Hin & Hw).
  destruct (find_province U _ _) as [q|] eqn:E; [eauto|].
  pose proof (find_none _ _ E p Hin) as Hf. unfold province_matches in Hf.
  apply orb_false_iff in Hf as [Hf1 Hf2].
  destruct Hw as [Hw|Hw]; apply search_word_spec in Hw; congruence.
Qed.

(** C1.  A title whose extracted day, month and year form a valid calendar
    date more than one day away from the current date is rejected,
    whatever province or keyword it contains. *)
Theorem temporal_filter_dominates now title d m y :
  extract_day U title = Some d ->
  extract_month U title = Some m ->
  extract_year U title = Some y ->
  check_date_fields y m d = true ->
  1 < Z.abs (days_between (Date y m d) (dt_date now)) ->
  is_earthquake_baslik U now title = None.
Proof.
  unfold extract_day, extract_month, extract_year, option_map, is_earthquake_baslik.
  intros Hd Hm Hy Hvalid Hfar.
  destruct (re_search U day_re title) as [[i dt]|]; [|reflexivity].
  destruct (find_month MONTHS (str_lower U title)) as [[name m']|]; [|reflexivity].
  destruct (m' =? 0); [reflexivity|].
  destruct (re_search U (year_re U) title) as [[j yt]|]; [|reflexivity].
  cbn [snd] in Hd, Hm, Hy. simplify_eq.
  destruct (is_date_current now _ m _ 1) eqn:E; [|reflexivity].
  apply is_date_current_spec in E as [_ E]. lia.
Qed.

(** C4.  A title without a day token, without a month spelling in its
    lowercased text, or without a year token is rejected. *)
Theorem missing_date_part_no_match now title :
  (forall i n, ~ day_token_at U title i n)
  \/ ~ has_month_spelling (str_lower U title)
  \/ (forall i y, ~ year_token_at U title i y) ->
  is_earthquake_baslik U now title = None.
Proof.
  intros H. unfold is_earthquake_baslik.
  destruct (re_search U day_re title) as [[i dt]|] eqn:Ed; [|reflexivity].
  destruct (find_month MONTHS (str_lower U title)) as [[name m]|] eqn:Em; [|reflexivity].
  destruct (m =? 0); [reflexivity|].
  destruct (re_search U (year_re U) title) as [[j yt]|] eqn:Ey; [|reflexivity].
  exfalso. destruct H as [H|[H|H]].
  - apply extract_day_some in Ed as [Ht _]. exact (H _ _ Ht).
  - apply H. exists (name, m). unfold find_month in Em.
    apply find_some in Em as [Hin Hc]. split; [exact Hin|].
    apply str_contains_spec. exact Hc.
  - apply extract_year_some in Ey. exact (H _ _ Ey).
Qed.

(** C5.  With a valid extracted date within one day of the current date
    and a recognized province, a candidate is returned; its confidence is
    high when the lowercased title contains one of the keywords and medium
    when it contains neither. *)
Theorem keyword_decides_confidence now title d m y :
  extract_day U title = Some d ->
  extract_month U title = Some m ->
  extract_year U title = Some y ->
  check_date_fields y m d = true ->
  Z.abs (days_between (Date y m d) (dt_date now)) <= 1 ->
  recognized_province U title ->
  exists c,
    is_earthquake_baslik U now title = Some c /\
    c_day c = d /\ c_month c = m /\ c_year c = y /\ In (c_province c) PROVINCES /\
    (has_keyword U title -> c_confidence c = high) /\
    (~ has_keyword U title -> c_confidence c = medium).
Proof.
  unfold extract_day, extract_month, extract_year, option_map, is_earthquake_baslik.
  intros Hd Hm Hy Hvalid Hnear Hprov.
  destruct (re_search U day_re title) as [[i dt]|]; [|discriminate].
  destruct (find_month MONTHS (str_lower U title)) as [[name m']|] eqn:Em; [|discriminate].
  rewrite (find_month_nonzero _ _ _ Em).
  destruct (re_search U (year_re U) title) as [[j yt]|]; [|discriminate].
  cbn [snd] in Hd, Hm, Hy. simplify_eq.
  rewrite (proj2 (is_date_current_spec now _ _ _) (conj Hvalid Hnear)). cbn [negb].
  destruct (recognized_province_found title Hprov) as [p Hp]. rewrite Hp.
  rewrite (find_province_truthy _ _ _ Hp). cbn [negb].
  eexists. split; [reflexivity|]. cbn [c_day c_month c_year c_province c_confidence].
  repeat (split; [reflexivity|]). split.
  { apply find_some in Hp as [Hin _]. exact Hin. }
  pose proof (has_keyword_spec title) as Hk.
  destruct (existsb _ EARTHQUAKE_KEYWORDS).
  - split; [reflexivity|]. intros Hn. exfalso. apply Hn, Hk. reflexivity.
  - split; [|reflexivity]. intros Hyes. apply Hk in Hyes. discriminate.
Qed.

(** C10.  The day of a returned candidate is the value of the leftmost
    day token of the raw title; no other token starts where it starts. *)
Theorem day_is_leftmost_token now title c :
  is_earthquake_baslik U now title = Some c ->
  exists i,
    day_token_at U title i (c_day c) /\
    forall j n, day_token_at U title j n -> (i <= j)%nat /\ (j = i -> n = c_day c).
Proof.
  unfold is_earthquake_baslik. intros H.
  destruct (re_search U day_re title) as [[i dt]|] eqn:Ed; [|discriminate].
  destruct (find_month MONTHS (str_lower U title)) as [[name m]|]; [|discriminate].
  destruct (m =? 0); [discriminate|].
  destruct (re_search U (year_re U) title) as [[j yt]|]; [|discriminate].
  destruct (negb (is_date_current now _ m _ 1)); [discriminate|].
  destruct (find_province U _ _) as [p|]; [|discriminate].
  destruct (negb (truthy_str p)); [discriminate|].
  injection H as <-. cbn [c_day]. exists i. apply extract_day_some. exact Ed.
Qed.

(** C3 as amended.  Two titles with the same normalized text and the same
    extracted date fields yield the same event identity (or are both
    rejected). *)
Theorem same_normalization_same_identity now t1 t2 :
  normalize_turkish U t1 = normalize_turkish U t2 ->
  extract_day U t1 = extract_day U t2 ->
  extract_month U t1 = extract_month U t2 ->
  extract_year U t1 = extract_year U t2 ->
  option_map event_identity (is_earthquake_baslik U now t1) =
  option_map event_identity (is_earthquake_baslik U now t2).
Proof.
  intros Hn Hd Hm Hy. rewrite !detect_identity, Hn, Hd, Hm, Hy. reflexivity.
Qed.

(** C6 as amended.  The result is a function of the title and of the
    calendar date of the clock reading: two runs on the same title at
    clock readings of the same date return the same result. *)
Theorem detector_depends_on_title_and_date now1 now2 title :
  dt_date now1 = dt_date now2 ->
  is_earthquake_baslik U now1 title = is_earthquake_baslik U now2 title.
Proof.
  intros H. unfold is_earthquake_baslik, is_date_current. rewrite H. reflexivity.
Qed.

(** The fields of a candidate come from the title alone: the clock decides
    only whether there is a candidate. *)
Lemma candidate_fields_from_title now1 now2 title c1 c2 :
  is_earthquake_baslik U now1 title = Some c1 ->
  is_earthquake_baslik U now2 title = Some c2 -> c1 = c2.
Proof.
  unfold is_earthquake_baslik. intros H1 H2.
  destruct (re_search U day_re title) as [[i dt]|]; [|discriminate].
  destruct (find_month MONTHS (str_lower U title)) as [[name m]|]; [|discriminate].
  destruct (m =? 0); [discriminate|].
  destruct (re_search U (year_re U) title) as [[j yt]|]; [|discriminate].
  destruct (negb (is_date_current now1 _ m _ 1)); [discriminate|].
  destruct (negb (is_date_current now2 _ m _ 1)); [discriminate|].
  destruct (find_province U _ _) as [p|]; [|discriminate].
  destruct (negb (truthy_str p)); [discriminate|].
  congruence.
Qed.

(** ** The monitoring loop *)

Lemma earthquake_id_identity pm pm' :
  event_identity pm = event_identity pm' -> earthquake_id pm = earthquake_id pm'.
Proof.
  unfold event_identity, earthquake_id. intros [= -> -> -> ->]. reflexivity.
Qed.

Lemma replay_app d t1 t2 :
  replay d (t1 ++ t2) =
  match replay d t1 with Some d1 => replay d1 t2 | None => None end.
Proof.
  revert d. induction t1 as [|e t1 IH]; intros d; [reflexivity|].
  destruct e as [k|b pm o| |s]; cbn; auto.
  destruct (bool_decide _); [reflexivity|]. apply IH.
Qed.

(** In a replayable trace no call is for an identity of the initial set. *)
Lemma replay_calls_fresh d t d' :
  replay d t = Some d' ->
  forall b pm o, In (SinkCall b pm o) t -> earthquake_id pm ∉ d.
Proof.
  revert d. induction t as [|e t IH]; intros d H b pm o Hin; [destruct Hin|].
  destruct Hin as [->|Hin].
  - cbn in H. destruct (bool_decide _) eqn:E; [discriminate|].
    apply bool_decide_eq_false in E. exact E.
  - destruct e as [k|b0 pm0 o0| |s]; cbn in H; eauto.
    destruct (bool_decide _); [discriminate|].
    pose proof (IH _ H _ _ _ Hin) as Hn. destruct o0; set_solver.
Qed.

Lemma calm_not_raising evs b pm : calm evs -> ~ In (SinkCall b pm SinkRaises) evs.
Proof.
  unfold calm. rewrite forallb_forall. intros H Hin. apply H in Hin. discriminate.
Qed.

Lemma calm_app a b : calm a -> calm b -> calm (a ++ b).
Proof. unfold calm. rewrite forallb_app. intros -> ->. reflexivity. Qed.

Lemma heartbeats_app a b : heartbeats (a ++ b) = heartbeats a ++ heartbeats b.
Proof. unfold heartbeats. apply flat_map_app. Qed.

(** The equations of the [for] loop. *)
Lemma check_basliks_cons o rest st :
  check_basliks U (o :: rest) st =
  match is_earthquake_baslik U (o_now o) (title (o_baslik o)) with
  | Some pm =>
      if bool_decide (earthquake_id pm ∈ detected_earthquakes st)
      then check_basliks U rest st
      else match o_sink o with
           | SinkOk =>
               check_basliks U rest
                 (LoopState ({[ earthquake_id pm ]} ∪ detected_earthquakes st)
                            (fetch_count st)
                            (trace st ++ [SinkCall (o_baslik o) pm SinkOk]))
           | SinkRaises =>
               (Raised,
                LoopState (detected_earthquakes st) (fetch_count st)
                          (trace st ++ [SinkCall (o_baslik o) pm SinkRaises]))
           end
  | None => check_basliks U rest st
  end.
Proof.
  cbn [check_basliks].
  destruct (is_earthquake_baslik U (o_now o) (title (o_baslik o))) as [pm|]; [|reflexivity].
  unfold mbind, M_bind, mret, M_ret, get, save_earthquake_event, emit, add_detected, raise.
  cbv beta iota. cbn [fetch_count detected_earthquakes trace].
  destruct (bool_decide _); [reflexivity|].
  destruct (o_sink o); reflexivity.
Qed.

(** What the [for] loop does to the state: it appends sink calls to the
    trace, adds the identities of the calls that returned to the dedup
    set, and stops at the first call that raises. *)
Lemma check_basliks_spec basliks : forall st r st',
  check_basliks U basliks st = (r, st') ->
  exists evs,
    trace st' = trace st ++ evs /\
    fetch_count st' = fetch_count st /\
    replay (detected_earthquakes st) evs = Some (detected_earthquakes st') /\
    heartbeats evs = [] /\
    match r with
    | Returned _ => calm evs
    | Raised =>
        exists evs0 b pm,
          evs = evs0 ++ [SinkCall b pm SinkRaises] /\ calm evs0 /\
          earthquake_id pm ∉ detected_earthquakes st'
    end.
Proof.
  induction basliks as [|o rest IH]; intros st r st' H.
  - injection H as <- <-. exists []. rewrite app_nil_r. repeat split; reflexivity.
  - rewrite check_basliks_cons in H.
    destruct (is_earthquake_baslik U (o_now o) (title (o_baslik o))) as [pm|]; [|eauto].
    destruct (bool_decide (earthquake_id pm ∈ detected_earthquakes st)) eqn:Ein; [eauto|].
    apply bool_decide_eq_false in Ein.
    destruct (o_sink o).
    + apply IH in H as (evs & Htr & Hfc & Hre & Hhb & Hr).
      cbn [fetch_count detected_earthquakes trace] in Htr, Hfc, Hre.
      exists (SinkCall (o_baslik o) pm SinkOk :: evs).
      split; [rewrite Htr, <- app_assoc; reflexivity|]. split; [exact Hfc|].
      split; [cbn [replay]; rewrite bool_decide_eq_false_2 by exact Ein; exact Hre|].
      split; [exact Hhb|].
      destruct r.
      * exact Hr.
      * destruct Hr as (evs0 & b & pm' & -> & Hc & Hn).
        exists (SinkCall (o_baslik o) pm SinkOk :: evs0), b, pm'. auto.
    + injection H as <- <-. exists [SinkCall (o_baslik o) pm SinkRaises].
      cbn [fetch_count detected_earthquakes trace replay].
      rewrite bool_decide_eq_false_2 by exact Ein.
      repeat (split; [reflexivity|]).
      exists [], (o_baslik o), pm. repeat split; auto.
Qed.

(** A topic that yields an identity not yet in the dedup set, met first,
    has the sink called for it. *)
Lemma check_basliks_head_call o rest st pm :
  is_earthquake_baslik U (o_now o) (title (o_baslik o)) = Some pm ->
  earthquake_id pm ∉ detected_earthquakes st ->
  exists evs,
    trace (snd (check_basliks U (o :: rest) st))
      = trace st ++ SinkCall (o_baslik o) pm (o_sink o) :: evs.
Proof.
  intros Hd Hn. rewrite check_basliks_cons, Hd.
  rewrite bool_decide_eq_false_2 by exact Hn.
  destruct (o_sink o).
  - destruct (check_basliks U rest _) as [r st'] eqn:E.
    apply check_basliks_spec in E as (evs & Htr & _).
    cbn [trace snd] in Htr |- *.
    exists evs. rewrite Htr, <- app_assoc. reflexivity.
  - exists []. reflexivity.
Qed.

Lemma poll_nil st :
  poll U [] st =
  (Returned tt,
   LoopState (detected_earthquakes st) (fetch_count st + 1)
             (trace st ++ [Sleep POLL_INTERVAL])).
Proof. reflexivity. Qed.

Lemma poll_cons o rest st :
  poll U (o :: rest) st =
  match check_basliks U (o :: rest)
          (LoopState (detected_earthquakes st) (fetch_count st + 1)
                     (trace st ++ heartbeat_events (fetch_count st + 1))) with
  | (Returned _, st3) =>
      (Returned tt,
       LoopState (detected_earthquakes st3) (fetch_count st3)
                 (trace st3 ++ [Sleep POLL_INTERVAL]))
  | (Raised, st3) => (Raised, st3)
  end.
Proof.
  unfold poll, mbind, M_bind, mret, M_ret, incr_fetch_count, sleep, emit, get,
    heartbeat_events.
  cbv beta iota. generalize (check_basliks U (o :: rest)). intros f.
  cbn [fetch_count detected_earthquakes trace].
  destruct (_ =? 0); cbn [fetch_count detected_earthquakes trace];
    rewrite ?app_nil_r; destruct (f _) as [[[]|] st3]; reflexivity.
Qed.

Lemma handler_state st :
  snd ((emit UnexpectedError ;; sleep POLL_INTERVAL) st) =
  LoopState (detected_earthquakes st) (fetch_count st)
            (trace st ++ [UnexpectedError; Sleep POLL_INTERVAL]).
Proof.
  unfold mbind, M_bind, sleep, emit. cbn. rewrite <- app_assoc. reflexivity.
Qed.

Lemma heartbeat_events_calm k : calm (heartbeat_events k).
Proof. unfold heartbeat_events. destruct (_ =? 0); reflexivity. Qed.

Lemma heartbeat_events_replay k d : replay d (heartbeat_events k) = Some d.
Proof. unfold heartbeat_events. destruct (_ =? 0); reflexivity. Qed.

(** What one iteration of the loop does to the state. *)
Lemma cycle_spec basliks st :
  exists evs,
    trace (cycle U basliks st) = trace st ++ evs /\
    fetch_count (cycle U basliks st) = fetch_count st + 1 /\
    replay (detected_earthquakes st) evs
      = Some (detected_earthquakes (cycle U basliks st)) /\
    heartbeats evs = beat basliks (fetch_count st + 1) /\
    forall b pm, In (SinkCall b pm SinkRaises) evs ->
      (exists t1, evs = t1 ++ [SinkCall b pm SinkRaises; UnexpectedError; Sleep POLL_INTERVAL])
      /\ earthquake_id pm ∉ detected_earthquakes (cycle U basliks st).
Proof.
  unfold cycle, try_except. destruct basliks as [|o rest].
  - rewrite poll_nil. exists [Sleep POLL_INTERVAL]. repeat (split; [reflexivity|]).
    intros b pm [H|[]]. discriminate.
  - rewrite poll_cons. set (hb := heartbeat_events (fetch_count st + 1)).
    destruct (check_basliks U (o :: rest) _) as [r st3] eqn:E.
    apply check_basliks_spec in E as (evs & Htr & Hfc & Hre & Hh & Hr).
    cbn [fetch_count detected_earthquakes trace] in Htr, Hfc, Hre.
    pose proof (heartbeat_events_calm (fetch_count st + 1)) as Hcalm. fold hb in Hcalm.
    destruct r as [[]|].
    + cbn [fetch_count detected_earthquakes trace].
      exists (hb ++ evs ++ [Sleep POLL_INTERVAL]).
      split; [rewrite Htr, <- !app_assoc; reflexivity|]. split; [exact Hfc|].
      split; [unfold hb; rewrite replay_app, heartbeat_events_replay, replay_app, Hre;
              reflexivity|].
      split; [rewrite !heartbeats_app, Hh, app_nil_r; reflexivity|].
      intros b pm Hin. exfalso.
      apply (calm_not_raising (hb ++ evs ++ [Sleep POLL_INTERVAL]) b pm); [|exact Hin].
      repeat apply calm_app; auto. reflexivity.
    + rewrite handler_state. cbn [fetch_count detected_earthquakes trace].
      destruct Hr as (evs0 & b0 & pm0 & -> & Hc & Hn).
      exists (hb ++ evs0 ++ [SinkCall b0 pm0 SinkRaises; UnexpectedError; Sleep POLL_INTERVAL]).
      split; [rewrite Htr, <- !app_assoc; reflexivity|]. split; [exact Hfc|].
      split.
      { unfold hb. rewrite replay_app, heartbeat_events_replay.
        replace (evs0 ++ [SinkCall b0 pm0 SinkRaises; UnexpectedError; Sleep POLL_INTERVAL])
          with ((evs0 ++ [SinkCall b0 pm0 SinkRaises]) ++ [UnexpectedError; Sleep POLL_INTERVAL])
          by (rewrite <- app_assoc; reflexivity).
        rewrite replay_app, Hre. reflexivity. }
      split.
      { rewrite heartbeats_app in Hh. apply app_eq_nil in Hh as [Hh _].
        rewrite !heartbeats_app, Hh. cbn. rewrite app_nil_r. reflexivity. }
      intros b pm Hin.
      assert (b = b0 /\ pm = pm0) as [-> ->].
      { apply in_app_or in Hin as [Hin|Hin];
          [exfalso; exact (calm_not_raising _ _ _ Hcalm Hin)|].
        apply in_app_or in Hin as [Hin|Hin];
          [exfalso; exact (calm_not_raising _ _ _ Hc Hin)|].
        destruct Hin as [[= -> ->]|[Hin|[Hin|[]]]]; [auto|discriminate|discriminate]. }
      split; [|exact Hn].
      exists (hb ++ evs0). rewrite <- app_assoc. reflexivity.
Qed.


Lemma cycle_head_call o rest st pm :
  is_earthquake_baslik U (o_now o) (title (o_baslik o)) = Some pm ->
  earthquake_id pm ∉ detected_earthquakes st ->
  exists t3 t4,
    trace (cycle U (o :: rest) st)
      = trace st ++ t3 ++ SinkCall (o_baslik o) pm (o_sink o) :: t4.
Proof.
  intros Hd Hn. unfold cycle, try_except. rewrite poll_cons.
  set (st2 := LoopState _ _ _).
  destruct (check_basliks_head_call o rest st2 pm Hd Hn) as [evs Hevs].
  destruct (check_basliks U (o :: rest) st2) as [r st3]. cbn [snd] in Hevs.
  subst st2. cbn [trace] in Hevs.
  destruct r as [[]|].
  - cbn [trace]. exists (heartbeat_events (fetch_count st + 1)), (evs ++ [Sleep POLL_INTERVAL]).
    rewrite Hevs, <- !app_assoc. reflexivity.
  - rewrite handler_state. cbn [trace].
    exists (heartbeat_events (fetch_count st + 1)),
           (evs ++ [UnexpectedError; Sleep POLL_INTERVAL]).
    rewrite Hevs, <- !app_assoc. reflexivity.
Qed.

Lemma run_cons c cycles st : run U (c :: cycles) st = run U cycles (cycle U c st).
Proof. reflexivity. Qed.


Lemma in_beat basliks k0 k :
  In k (beat basliks k0) <-> k = k0 /\ basliks <> [] /\ k mod HEARTBEAT_INTERVAL = 0.
Proof.
  unfold beat, heartbeat_events. destruct basliks as [|o rest].
  - split; [intros []|intros (_ & H & _); congruence].
  - destruct (Z.eqb_spec (k0 mod HEARTBEAT_INTERVAL) 0) as [E|E]; cbn.
    + split.
      * intros [<-|[]]. repeat split; auto; discriminate.
      * intros (-> & _). left. reflexivity.
    + split; [intros []|intros (-> & _ & H); congruence].
Qed.

(** What a run of the loop does to the state. *)
Lemma run_spec cycles : forall st,
  exists evs,
    trace (run U cycles st) = trace st ++ evs /\
    fetch_count (run U cycles st) = fetch_count st + Z.of_nat (length cycles) /\
    replay (detected_earthquakes st) evs
      = Some (detected_earthquakes (run U cycles st)) /\
    forall k, In k (heartbeats evs) <->
      exists i basliks,
        cycles !! i = Some basliks /\ k = fetch_count st + Z.of_nat i + 1 /\
        basliks <> [] /\ k mod HEARTBEAT_INTERVAL = 0.
Proof.
  induction cycles as [|c cycles IH]; intros st.
  - exists []. rewrite app_nil_r. cbn. split; [reflexivity|]. split; [lia|].
    split; [reflexivity|]. intros k. split; [intros []|].
    intros (i & basliks & H & _). rewrite lookup_nil in H. discriminate.
  - rewrite run_cons.
    destruct (cycle_spec c st) as (e1 & Ht1 & Hf1 & Hr1 & Hh1 & _).
    destruct (IH (cycle U c st)) as (e2 & Ht2 & Hf2 & Hr2 & Hh2).
    exists (e1 ++ e2).
    split; [rewrite Ht2, Ht1, <- app_assoc; reflexivity|].
    split; [rewrite Hf2, Hf1; cbn [length]; lia|].
    split; [rewrite replay_app, Hr1; exact Hr2|].
    intros k. rewrite heartbeats_app, in_app_iff, Hh1, in_beat, Hh2, Hf1. split.
    + intros [(-> & Hne & Hmod)|(i & basliks & Hl & -> & Hne & Hmod)].
      * exists 0%nat, c. repeat split; auto. lia.
      * exists (S i), basliks. repeat split; auto. lia.
    + intros (i & basliks & Hl & -> & Hne & Hmod). destruct i as [|i].
      * cbn in Hl. injection Hl as ->. left. repeat split; auto. lia.
      * right. exists i, basliks. cbn in Hl. repeat split; auto. lia.
Qed.

(** C2 as amended.  Once a sink call for an identity has returned, the
    loop makes no further sink call for that identity: no call later in
    the trace, whatever its outcome, has the identity of a call that
    returned. *)
Theorem no_call_after_recorded cycles t1 b pm t2 :
  trace (monitor_earthquakes U cycles) = t1 ++ SinkCall b pm SinkOk :: t2 ->
  forall b' pm' o', In (SinkCall b' pm' o') t2 ->
    event_identity pm' <> event_identity pm.
Proof.
  intros Htr b' pm' o' Hin Hid. unfold monitor_earthquakes in Htr.
  destruct (run_spec cycles initial_state) as (evs & Ht & _ & Hre & _).
  cbn [trace initial_state detected_earthquakes app] in Ht, Hre.
  rewrite <- Ht, Htr, replay_app in Hre.
  destruct (replay ∅ t1) as [d1|]; [|discriminate]. cbn in Hre.
  destruct (bool_decide _); [discriminate|].
  pose proof (replay_calls_fresh _ _ _ Hre _ _ _ Hin) as Hfresh.
  apply earthquake_id_identity in Hid. set_solver.
Qed.

(** ** Iterations whose log calls can raise *)

Lemma poll_with_none inp st : it_fetch inp = None -> poll_with U inp st = (Raised, st).
Proof. unfold poll_with. intros ->. reflexivity. Qed.

Lemma poll_with_logged inp basliks st :
  it_fetch inp = Some basliks -> it_heartbeat_log inp = LogOk ->
  poll_with U inp st = poll U basliks st.
Proof. unfold poll_with, poll. intros -> ->. reflexivity. Qed.

Lemma poll_with_not_due inp basliks st :
  it_fetch inp = Some basliks ->
  (fetch_count st + 1) mod HEARTBEAT_INTERVAL <> 0 ->
  poll_with U inp st = poll U basliks st.
Proof.
  unfold poll_with, poll. intros -> Hmod. destruct basliks as [|o rest]; [reflexivity|].
  unfold mbind, M_bind, incr_fetch_count, get. cbv beta iota.
  cbn [fetch_count detected_earthquakes trace].
  apply Z.eqb_neq in Hmod. rewrite Hmod. reflexivity.
Qed.

Lemma poll_with_heartbeat_raises inp o rest st :
  it_fetch inp = Some (o :: rest) -> it_heartbeat_log inp = LogRaises ->
  (fetch_count st + 1) mod HEARTBEAT_INTERVAL = 0 ->
  poll_with U inp st =
  (Raised, LoopState (detected_earthquakes st) (fetch_count st + 1) (trace st)).
Proof.
  unfold poll_with. intros -> -> Hmod.
  unfold mbind, M_bind, incr_fetch_count, get, log_message, raise. cbv beta iota.
  cbn [fetch_count detected_earthquakes trace].
  apply Z.eqb_eq in Hmod. rewrite Hmod. reflexivity.
Qed.

(** What the body of the [try] does when the heartbeat line is written. *)
Lemma poll_spec basliks st r st1 :
  poll U basliks st = (r, st1) ->
  exists evs,
    trace st1 = trace st ++ evs /\
    fetch_count st1 = fetch_count st + 1 /\
    replay (detected_earthquakes st) evs = Some (detected_earthquakes st1) /\
    match r with
    | Returned _ => calm evs
    | Raised =>
        exists evs0 b pm,
          evs = evs0 ++ [SinkCall b pm SinkRaises] /\ calm evs0 /\
          earthquake_id pm ∉ detected_earthquakes st1
    end.
Proof.
  destruct basliks as [|o rest].
  - rewrite poll_nil. intros [= <- <-]. exists [Sleep POLL_INTERVAL].
    repeat (split; [reflexivity|]). reflexivity.
  - rewrite poll_cons. set (hb := heartbeat_events (fetch_count st + 1)).
    destruct (check_basliks U (o :: rest) _) as [r3 st3] eqn:E.
    apply check_basliks_spec in E as (evs & Htr & Hfc & Hre & _ & Hr).
    cbn [fetch_count detected_earthquakes trace] in Htr, Hfc, Hre.
    pose proof (heartbeat_events_calm (fetch_count st + 1)) as Hcalm. fold hb in Hcalm.
    destruct r3 as [[]|]; intros [= <- <-].
    + cbn [fetch_count detected_earthquakes trace].
      exists (hb ++ evs ++ [Sleep POLL_INTERVAL]).
      split; [rewrite Htr, <- !app_assoc; reflexivity|]. split; [exact Hfc|].
      split; [unfold hb; rewrite replay_app, heartbeat_events_replay, replay_app, Hre;
              reflexivity|].
      repeat apply calm_app; auto. reflexivity.
    + destruct Hr as (evs0 & b0 & pm0 & -> & Hc & Hn).
      exists (hb ++ evs0 ++ [SinkCall b0 pm0 SinkRaises]).
      split; [rewrite Htr, <- !app_assoc; reflexivity|]. split; [exact Hfc|].
      split; [unfold hb; rewrite replay_app, heartbeat_events_replay; exact Hre|].
      exists (hb ++ evs0), b0, pm0.
      split; [rewrite <- app_assoc; reflexivity|]. split; [apply calm_app; auto|exact Hn].
Qed.

(** What the body of the [try] does in general: when it raises after a sink
    call that raised, that call is its last event, the fetch was counted and
    the identity is not in the dedup set. *)
Lemma poll_with_spec inp st r st1 :
  poll_with U inp st = (r, st1) ->
  exists evs,
    trace st1 = trace st ++ evs /\
    replay (detected_earthquakes st) evs = Some (detected_earthquakes st1) /\
    match r with
    | Returned _ => calm evs
    | Raised =>
        forall b pm, In (SinkCall b pm SinkRaises) evs ->
          (exists t1, evs = t1 ++ [SinkCall b pm SinkRaises]) /\
          fetch_count st1 = fetch_count st + 1 /\
          earthquake_id pm ∉ detected_earthquakes st1
    end.
Proof.
  assert (Hpoll : forall basliks, poll U basliks st = (r, st1) ->
    exists evs,
      trace st1 = trace st ++ evs /\
      replay (detected_earthquakes st) evs = Some (detected_earthquakes st1) /\
      match r with
      | Returned _ => calm evs
      | Raised =>
          forall b pm, In (SinkCall b pm SinkRaises) evs ->
            (exists t1, evs = t1 ++ [SinkCall b pm SinkRaises]) /\
            fetch_count st1 = fetch_count st + 1 /\
            earthquake_id pm ∉ detected_earthquakes st1
      end).
  { intros basliks H. apply poll_spec in H as (evs & Htr & Hfc & Hre & Hr).
    exists evs. split; [exact Htr|]. split; [exact Hre|].
    destruct r; [exact Hr|].
    destruct Hr as (evs0 & b0 & pm0 & -> & Hc & Hn). intros b pm Hin.
    apply in_app_or in Hin as [Hin|Hin];
      [exfalso; exact (calm_not_raising _ _ _ Hc Hin)|].
    destruct Hin as [[= -> ->]|[]]. split; [exists evs0; reflexivity|auto]. }
  assert (Hquiet : forall fc, (r, st1) =
            (Raised, LoopState (detected_earthquakes st) fc (trace st)) ->
    exists evs,
      trace st1 = trace st ++ evs /\
      replay (detected_earthquakes st) evs = Some (detected_earthquakes st1) /\
      match r with
      | Returned _ => calm evs
      | Raised =>
          forall b pm, In (SinkCall b pm SinkRaises) evs ->
            (exists t1, evs = t1 ++ [SinkCall b pm SinkRaises]) /\
            fetch_count st1 = fetch_count st + 1 /\
            earthquake_id pm ∉ detected_earthquakes st1
      end).
  { intros fc [= -> ->]. exists []. cbn [trace detected_earthquakes].
    rewrite app_nil_r. split; [reflexivity|]. split; [reflexivity|]. intros b pm []. }
  destruct (it_fetch inp) as [basliks|] eqn:Ef.
  - destruct (it_heartbeat_log inp) eqn:Eh.
    + rewrite (poll_with_logged inp basliks st Ef Eh). apply Hpoll.
    + destruct (Z.eq_dec ((fetch_count st + 1) mod HEARTBEAT_INTERVAL) 0) as [Hmod|Hmod].
      * destruct basliks as [|o rest].
        -- unfold poll_with. rewrite Ef. apply (Hpoll []).
        -- rewrite (poll_with_heartbeat_raises inp o rest st Ef Eh Hmod). intros H.
           apply (Hquiet (fetch_count st + 1)). symmetry. exact H.
      * rewrite (poll_with_not_due inp basliks st Ef Hmod). apply Hpoll.
  - rewrite (poll_with_none inp st Ef). intros H. destruct st as [d fc t].
    apply (Hquiet fc). symmetry. exact H.
Qed.

(** What the [except Exception] handler does to the state. *)
Lemma handler_logged st :
  snd (sleep POLL_INTERVAL (snd (log_message LogOk UnexpectedError st))) =
  LoopState (detected_earthquakes st) (fetch_count st)
            (trace st ++ [UnexpectedError; Sleep POLL_INTERVAL]).
Proof. unfold sleep, log_message, emit. cbn. rewrite <- app_assoc. reflexivity. Qed.

Lemma iteration_eq inp st :
  iteration U inp st =
  match poll_with U inp st with
  | (Returned _, st1) => Continues st1
  | (Raised, st1) =>
      match it_handler_log inp with
      | LogOk =>
          Continues (LoopState (detected_earthquakes st1) (fetch_count st1)
                               (trace st1 ++ [UnexpectedError; Sleep POLL_INTERVAL]))
      | LogRaises => Ends st1
      end
  end.
Proof.
  unfold iteration. destruct (poll_with U inp st) as [[[]|] st1]; [reflexivity|].
  destruct (it_handler_log inp); [|reflexivity].
  rewrite <- handler_logged. reflexivity.
Qed.

(** An iteration in which every log call returns is a [cycle]. *)
Lemma iteration_logged basliks st :
  iteration U (logged basliks) st = Continues (cycle U basliks st).
Proof.
  rewrite iteration_eq, (poll_with_logged (logged basliks) basliks st eq_refl eq_refl).
  unfold cycle, try_except. destruct (poll U basliks st) as [[[]|] st1]; [reflexivity|].
  cbn [it_handler_log logged]. rewrite handler_state. reflexivity.
Qed.

Lemma run_until_logged cycles : forall st,
  run_until U (map logged cycles) st = Continues (run U cycles st).
Proof.
  induction cycles as [|c cycles IH]; intros st; [reflexivity|].
  cbn [map run_until]. rewrite iteration_logged, run_cons. apply IH.
Qed.

(** What one iteration does to the state, whatever its log calls do. *)
Lemma iteration_spec inp st :
  exists evs,
    trace (state_of (iteration U inp st)) = trace st ++ evs /\
    replay (detected_earthquakes st) evs
      = Some (detected_earthquakes (state_of (iteration U inp st))) /\
    forall b pm, In (SinkCall b pm SinkRaises) evs ->
      (earthquake_id pm ∉ detected_earthquakes (state_of (iteration U inp st))) /\
      fetch_count (state_of (iteration U inp st)) = fetch_count st + 1 /\
      match it_handler_log inp with
      | LogOk =>
          (exists st1, iteration U inp st = Continues st1) /\
          exists t1, evs = t1 ++ [SinkCall b pm SinkRaises; UnexpectedError;
                                  Sleep POLL_INTERVAL]
      | LogRaises =>
          (exists st1, iteration U inp st = Ends st1) /\
          exists t1, evs = t1 ++ [SinkCall b pm SinkRaises]
      end.
Proof.
  rewrite iteration_eq. destruct (poll_with U inp st) as [r st1] eqn:E.
  apply poll_with_spec in E as (evs & Htr & Hre & Hr).
  destruct r as [[]|].
  - exists evs. cbn [state_of]. split; [exact Htr|]. split; [exact Hre|].
    intros b pm Hin. exfalso. exact (calm_not_raising _ _ _ Hr Hin).
  - destruct (it_handler_log inp); cbn [state_of trace detected_earthquakes fetch_count].
    + exists (evs ++ [UnexpectedError; Sleep POLL_INTERVAL]).
      split; [rewrite Htr, <- app_assoc; reflexivity|].
      split; [rewrite replay_app, Hre; reflexivity|].
      intros b pm Hin. apply in_app_or in Hin as [Hin|Hin];
        [|destruct Hin as [Hin|[Hin|[]]]; discriminate].
      destruct (Hr _ _ Hin) as ([t1 ->] & Hfc & Hn).
      split; [exact Hn|]. split; [exact Hfc|]. split; [eauto|].
      exists t1. rewrite <- app_assoc. reflexivity.
    + exists evs. split; [exact Htr|]. split; [exact Hre|].
      intros b pm Hin. destruct (Hr _ _ Hin) as (Ht1 & Hfc & Hn).
      split; [exact Hn|]. split; [exact Hfc|]. split; [eauto|exact Ht1].
Qed.

(** The dedup discipline holds in general: whatever raises, and whether or
    not the loop ends, every sink call of a run is for an identity that is
    not in the dedup set at that moment, and the set ends as the calls that
    returned leave it. *)
Lemma run_until_replay inputs : forall st,
  exists evs,
    trace (state_of (run_until U inputs st)) = trace st ++ evs /\
    replay (detected_earthquakes st) evs
      = Some (detected_earthquakes (state_of (run_until U inputs st))).
Proof.
  induction inputs as [|inp inputs IH]; intros st.
  - exists []. cbn [run_until state_of]. rewrite app_nil_r. split; reflexivity.
  - cbn [run_until]. destruct (iteration_spec inp st) as (e1 & Ht1 & Hr1 & _).
    destruct (iteration U inp st) as [st1|st1]; cbn [state_of] in Ht1, Hr1.
    + destruct (IH st1) as (e2 & Ht2 & Hr2). exists (e1 ++ e2).
      split; [rewrite Ht2, Ht1, <- app_assoc; reflexivity|].
      rewrite replay_app, Hr1. exact Hr2.
    + exists e1. cbn [state_of]. split; [exact Ht1|exact Hr1].
Qed.

(** An iteration that reaches its topics calls the sink for the first of
    them when it yields an identity that is not in the dedup set. *)
Lemma iteration_head_call inp o rest st pm :
  it_fetch inp = Some (o :: rest) ->
  it_heartbeat_log inp = LogOk ->
  is_earthquake_baslik U (o_now o) (title (o_baslik o)) = Some pm ->
  earthquake_id pm ∉ detected_earthquakes st ->
  exists t3 t4,
    trace (state_of (iteration U inp st))
      = trace st ++ t3 ++ SinkCall (o_baslik o) pm (o_sink o) :: t4.
Proof.
  intros Ef Eh Hd Hn.
  rewrite iteration_eq, (poll_with_logged inp (o :: rest) st Ef Eh), poll_cons.
  set (st2 := LoopState _ _ _).
  destruct (check_basliks_head_call o rest st2 pm Hd Hn) as [evs Hevs].
  destruct (check_basliks U (o :: rest) st2) as [r st3]. cbn [snd] in Hevs.
  subst st2. cbn [trace] in Hevs.
  destruct r as [[]|]; [|destruct (it_handler_log inp)]; cbn [state_of trace].
  - exists (heartbeat_events (fetch_count st + 1)), (evs ++ [Sleep POLL_INTERVAL]).
    rewrite Hevs, <- !app_assoc. reflexivity.
  - exists (heartbeat_events (fetch_count st + 1)),
           (evs ++ [UnexpectedError; Sleep POLL_INTERVAL]).
    rewrite Hevs, <- !app_assoc. reflexivity.
  - exists (heartbeat_events (fetch_count st + 1)), evs.
    rewrite Hevs, <- !app_assoc. reflexivity.
Qed.

(** C8 as amended.  An iteration in which a sink call raises leaves the
    identity out of the dedup set.  When the [except Exception] handler can
    write its error line, the loop goes on: the iteration ends with that
    line and the sleep, the fetch has been counted, and the next iteration
    that reaches its topics and whose first topic yields that identity
    calls the sink for it again. *)
Theorem failed_call_is_retried st inp b pm :
  In (SinkCall b pm SinkRaises) (events_since st (state_of (iteration U inp st))) ->
  (earthquake_id pm ∉ detected_earthquakes (state_of (iteration U inp st)))
  /\ (it_handler_log inp = LogOk ->
      exists st1,
        iteration U inp st = Continues st1
        /\ (exists t1, events_since st st1
                         = t1 ++ [SinkCall b pm SinkRaises; UnexpectedError;
                                  Sleep POLL_INTERVAL])
        /\ fetch_count st1 = fetch_count st + 1
        /\ (forall inp' o rest pm',
              it_fetch inp' = Some (o :: rest) ->
              it_heartbeat_log inp' = LogOk ->
              is_earthquake_baslik U (o_now o) (title (o_baslik o)) = Some pm' ->
              event_identity pm' = event_identity pm ->
              In (SinkCall (o_baslik o) pm' (o_sink o))
                 (events_since st1 (state_of (iteration U inp' st1))))).
Proof.
  unfold events_since.
  destruct (iteration_spec inp st) as (evs & Ht & _ & Hfail).
  rewrite Ht, drop_app_length. intros Hin.
  destruct (Hfail _ _ Hin) as (Hn & Hf & Hlog).
  split; [exact Hn|]. intros Eh. rewrite Eh in Hlog.
  destruct Hlog as ([st1 E1] & Hshape). rewrite E1 in Ht, Hn, Hf. cbn [state_of] in Ht, Hn, Hf.
  exists st1. split; [exact E1|].
  split; [rewrite Ht, drop_app_length; exact Hshape|]. split; [exact Hf|].
  intros inp' o rest pm' Ef' Eh' Hd Hid.
  apply earthquake_id_identity in Hid. rewrite <- Hid in Hn.
  destruct (iteration_head_call inp' o rest st1 pm' Ef' Eh' Hd Hn) as (t3 & t4 & Hc).
  rewrite Hc, drop_app_length. apply in_or_app. right. left. reflexivity.
Qed.


End Facts.

(* ================================================================== *)
(** * Further facts *)
(* ================================================================== *)

(** ** Candidates *)

Section CandidateFacts.
Context (U : UnicodeDB).

(** The way a candidate comes about. *)
Lemma detect_some_inv now title c :
  is_earthquake_baslik U now title = Some c ->
  exists i day_text j year_text,
    re_search U day_re title = Some (i, day_text) /\
    find_month MONTHS (str_lower U title) = Some (c_month_name c, c_month c) /\
    re_search U (year_re U) title = Some (j, year_text) /\
    c_day c = int_of_str U day_text /\
    c_year c = int_of_str U year_text /\
    is_date_current now (c_day c) (c_month c) (c_year c) 1 = true /\
    find_province U (str_lower U title) (normalize_turkish U title) = Some (c_province c) /\
    c_has_earthquake_keyword c
      = existsb (fun kw => str_contains kw (str_lower U title)) EARTHQUAKE_KEYWORDS /\
    c_confidence c = (if c_has_earthquake_keyword c then high else medium).
Proof.
  unfold is_earthquake_baslik. intros H.
  destruct (re_search U day_re title) as [[i dt]|]; [|discriminate].
  destruct (find_month MONTHS (str_lower U title)) as [[name m]|]; [|discriminate].
  destruct (m =? 0); [discriminate|].
  destruct (re_search U (year_re U) title) as [[j yt]|]; [|discriminate].
  destruct (is_date_current now _ m _ 1) eqn:Ec; [|discriminate].
  destruct (find_province U _ _) as [p|]; [|discriminate].
  destruct (negb (truthy_str p)); [discriminate|].
  injection H as <-. cbn [c_day c_month c_month_name c_year c_province
                          c_has_earthquake_keyword c_confidence].
  exists i, dt, j, yt. repeat split; auto.
Qed.

Lemma months_in_range :
  forallb (fun e => (1 <=? snd e) && (snd e <=? 12)) MONTHS = true.
Proof. vm_compute. reflexivity. Qed.

(** X1.  Every candidate is well formed: its day is in 1..31, its month and
    month name are an entry of the lexicon with a month of 1..12, its year
    is in 2000..2099, its province is an entry of the province list, and
    its confidence is high exactly when its keyword flag is set. *)
Theorem candidate_well_formed now title c :
  is_earthquake_baslik U now title = Some c ->
  1 <= c_day c <= 31 /\
  In (c_month_name c, c_month c) MONTHS /\ 1 <= c_month c <= 12 /\
  2000 <= c_year c <= 2099 /\
  In (c_province c) PROVINCES /\
  (c_confidence c = high <-> c_has_earthquake_keyword c = true).
Proof.
  intros H.
  destruct (detect_some_inv _ _ _ H)
    as (i & dt & j & yt & Hd & Hm & Hy & Ed & Ey & _ & Hp & _ & Hc).
  apply (extract_day_some U) in Hd as [(pre & post & _ & _ & Hr & _) _].
  apply (extract_year_some U) in Hy as (pre' & tok & post' & _ & _ & _ & _ & Ey' & Hyr & _).
  apply find_some in Hm as [Hm _]. apply find_some in Hp as [Hp _].
  pose proof (proj1 (forallb_forall _ _) months_in_range _ Hm) as Hmr.
  cbn [snd] in Hmr. apply andb_true_iff in Hmr as [H1 H2].
  apply Z.leb_le in H1, H2.
  rewrite Ed, Ey. split; [exact Hr|]. split; [exact Hm|]. split; [lia|].
  split; [lia|]. split; [exact Hp|].
  rewrite Hc. destruct (c_has_earthquake_keyword c); split; congruence.
Qed.

(** X2.  The date of every candidate is a valid calendar date at most one
    day away from the date of the clock reading. *)
Theorem candidate_date_is_current now title c :
  is_earthquake_baslik U now title = Some c ->
  check_date_fields (c_year c) (c_month c) (c_day c) = true /\
  Z.abs (days_between (Date (c_year c) (c_month c) (c_day c)) (dt_date now)) <= 1.
Proof.
  intros H.
  destruct (detect_some_inv _ _ _ H) as (i & dt & j & yt & _ & _ & _ & _ & _ & Hc & _).
  apply is_date_current_spec in Hc. exact Hc.
Qed.

Lemma find_province_recognized title p :
  find_province U (str_lower U title) (normalize_turkish U title) = Some p ->
  recognized_province U title.
Proof.
  intros H. apply find_some in H as [Hin Hm]. exists p. split; [exact Hin|].
  unfold province_matches in Hm. apply orb_true_iff in Hm as [Hm|Hm];
    apply (search_word_spec U) in Hm; auto.
Qed.

(** X3.  A candidate is returned exactly when the three date fields are
    found, they form a valid date within one day of the current date, and
    the title has a recognized province. *)
Theorem candidate_iff_date_and_province now title :
  is_Some (is_earthquake_baslik U now title) <->
  exists d m y,
    extract_day U title = Some d /\ extract_month U title = Some m /\
    extract_year U title = Some y /\
    check_date_fields y m d = true /\
    Z.abs (days_between (Date y m d) (dt_date now)) <= 1 /\
    recognized_province U title.
Proof.
  split.
  - intros [c H].
    destruct (detect_some_inv _ _ _ H)
      as (i & dt & j & yt & Hd & Hm & Hy & Ed & Ey & Hc & Hp & _).
    exists (c_day c), (c_month c), (c_year c).
    unfold extract_day, extract_month, extract_year. rewrite Hd, Hm, Hy. cbn [option_map snd].
    apply is_date_current_spec in Hc as [Hv Hn].
    rewrite <- Ed, <- Ey. repeat split; auto.
    exact (find_province_recognized _ _ Hp).
  - intros (d & m & y & Hd & Hm & Hy & Hv & Hn & Hp).
    unfold extract_day, extract_month, extract_year, option_map in Hd, Hm, Hy.
    unfold is_earthquake_baslik.
    destruct (re_search U day_re title) as [[i dt]|]; [|discriminate].
    destruct (find_month MONTHS (str_lower U title)) as [[name m']|] eqn:Em; [|discriminate].
    rewrite (find_month_nonzero _ _ _ Em).
    destruct (re_search U (year_re U) title) as [[j yt]|]; [|discriminate].
    cbn [snd] in Hd, Hm, Hy. simplify_eq.
    rewrite (proj2 (is_date_current_spec now _ _ _) (conj Hv Hn)). cbn [negb].
    destruct (recognized_province_found U title Hp) as [p Hf]. rewrite Hf.
    rewrite (find_province_truthy U _ _ _ Hf). cbn [negb]. eauto.
Qed.


(** X4.  The fields of a candidate come from the title alone: two runs on
    the same title that both return a candidate return the same candidate,
    whatever the two clock readings are. *)
Theorem candidate_independent_of_clock now1 now2 title c1 c2 :
  is_earthquake_baslik U now1 title = Some c1 ->
  is_earthquake_baslik U now2 title = Some c2 ->
  c1 = c2.
Proof. apply candidate_fields_from_title. Qed.

Lemma find_first {A} (f : A -> bool) l x :
  List.find f l = Some x ->
  exists l1 l2, l = l1 ++ x :: l2 /\ f x = true /\ forall y, In y l1 -> f y = false.
Proof.
  induction l as [|a l IH]; cbn; [discriminate|].
  destruct (f a) eqn:E.
  - intros [= ->]. exists [], l. repeat split; auto. intros y [].
  - intros H. destruct (IH H) as (l1 & l2 & -> & Hx & Hl1).
    exists (a :: l1), l2. repeat split; auto.
    intros y [<-|Hy]; auto.
Qed.

(** X5.  The month of a candidate is that of the first entry of the
    lexicon, in its order, whose spelling occurs in the lowercased title. *)
Theorem month_is_first_lexicon_match now title c :
  is_earthquake_baslik U now title = Some c ->
  exists before after,
    MONTHS = before ++ (c_month_name c, c_month c) :: after /\
    substring (c_month_name c) (str_lower U title) /\
    forall e, In e before -> ~ substring (fst e) (str_lower U title).
Proof.
  intros H.
  destruct (detect_some_inv _ _ _ H) as (i & dt & j & yt & _ & Hm & _).
  apply find_first in Hm as (l1 & l2 & Heq & Hx & Hl1).
  exists l1, l2. split; [exact Heq|]. split.
  - apply str_contains_spec. exact Hx.
  - intros e He Hs. apply str_contains_spec in Hs. rewrite (Hl1 e He) in Hs. discriminate.
Qed.

(** X6.  The province of a candidate is the first entry of the province
    list, in its order, that occurs as a whole word in the lowercased title
    or whose normalized spelling occurs as a whole word in the normalized
    title. *)
Theorem province_is_first_list_match now title c :
  is_earthquake_baslik U now title = Some c ->
  exists before after,
    PROVINCES = before ++ c_province c :: after /\
    (whole_word U (c_province c) (str_lower U title)
     \/ whole_word U (normalize_turkish U (c_province c)) (normalize_turkish U title)) /\
    forall q, In q before ->
      ~ whole_word U q (str_lower U title) /\
      ~ whole_word U (normalize_turkish U q) (normalize_turkish U title).
Proof.
  intros H.
  destruct (detect_some_inv _ _ _ H) as (i & dt & j & yt & _ & _ & _ & _ & _ & _ & Hp & _).
  apply find_first in Hp as (l1 & l2 & Heq & Hx & Hl1).
  exists l1, l2. split; [exact Heq|]. split.
  - unfold province_matches in Hx. apply orb_true_iff in Hx as [Hx|Hx];
      apply (search_word_spec U) in Hx; auto.
  - intros q Hq. pose proof (Hl1 q Hq) as Hf. unfold province_matches in Hf.
    apply orb_false_iff in Hf as [H1 H2].
    split; intros Hw; apply (search_word_spec U) in Hw; congruence.
Qed.

Lemma substring_trans a b s : substring a b -> substring b s -> substring a s.
Proof.
  intros (p1 & q1 & ->) (p2 & q2 & ->).
  exists (p2 ++ p1), (q1 ++ q2). rewrite <- !app_assoc. reflexivity.
Qed.

(** X7.  The keyword flag of a candidate is set exactly when "deprem"
    occurs in the lowercased title: the second keyword contains the
    first and adds nothing. *)
Theorem keyword_flag_is_deprem now title c :
  is_earthquake_baslik U now title = Some c ->
  (c_has_earthquake_keyword c = true <-> substring (u "deprem") (str_lower U title)).
Proof.
  intros H.
  destruct (detect_some_inv _ _ _ H)
    as (i & dt & j & yt & _ & _ & _ & _ & _ & _ & _ & Hk & _).
  rewrite Hk.
  change EARTHQUAKE_KEYWORDS with [u "deprem"; u "depremi"]. cbn [existsb].
  rewrite orb_false_r, orb_true_iff, !str_contains_spec. split; [|auto].
  intros [Hs|Hs]; [exact Hs|].
  apply (substring_trans _ (u "depremi")); [|exact Hs].
  exists [], [105]. vm_compute. reflexivity.
Qed.

Lemma province_matches_same_fold title p q :
  forallb lower_stable p = true -> forallb lower_stable q = true ->
  map fold_char p = map fold_char q ->
  province_matches U (str_lower U title) (normalize_turkish U title) p =
  province_matches U (str_lower U title) (normalize_turkish U title) q.
Proof.
  intros Hp Hq Hk. rewrite !(province_matches_normalized U) by assumption.
  rewrite (normalize_turkish_map U p), (normalize_turkish_map U q).
  rewrite (str_lower_fixed U p Hp), (str_lower_fixed U q Hq), Hk. reflexivity.
Qed.

Lemma find_first_of_key (f : str -> bool) key l x :
  (forall a b, In a l -> In b l -> key a = key b -> f a = f b) ->
  List.find f l = Some x -> first_of_key key l x = true.
Proof.
  induction l as [|a l IH]; intros Hk H; cbn in H |- *; [discriminate|].
  destruct (f a) eqn:E.
  - injection H as ->. rewrite !bool_decide_eq_true_2 by reflexivity. reflexivity.
  - pose proof (find_some _ _ H) as [Hin Hx].
    rewrite bool_decide_eq_false_2.
    + apply IH; [|exact H]. intros a' b' Ha Hb. apply Hk; right; assumption.
    + intros Heq. rewrite (Hk a x (or_introl eq_refl) (or_intror Hin) Heq) in E.
      congruence.
Qed.

Lemma shadowed_not_first :
  forallb (fun v => negb (first_of_key (map fold_char) PROVINCES v)) shadowed_provinces
  = true.
Proof. vm_compute. reflexivity. Qed.

(** X8.  The province of a candidate is never one of the 26 ASCII variants
    that follow, in the province list, an entry with the same normalized
    spelling: a title with such a variant is reported under the accented
    entry. *)
Theorem shadowed_variant_never_reported now title c :
  is_earthquake_baslik U now title = Some c ->
  ~ In (c_province c) shadowed_provinces.
Proof.
  intros H Hin.
  destruct (detect_some_inv _ _ _ H) as (i & dt & j & yt & _ & _ & _ & _ & _ & _ & Hp & _).
  apply (find_first_of_key _ (map fold_char)) in Hp.
  - pose proof (proj1 (forallb_forall _ _) shadowed_not_first _ Hin) as Hs.
    cbn beta in Hs. rewrite Hp in Hs. discriminate.
  - intros a b Ha Hb. apply province_matches_same_fold.
    + exact (proj1 (forallb_forall _ _) provinces_lower_stable _ Ha).
    + exact (proj1 (forallb_forall _ _) provinces_lower_stable _ Hb).
Qed.

Lemma fold_char_not_key c : ~ In (fold_char c) (map fst replacements).
Proof.
  unfold fold_char. rewrite replacements_codes. cbn.
  repeat match goal with
  | |- context [c =? ?k] =>
      destruct (Z.eqb_spec c k) as [->|?]; [cbn; lia|]
  end.
  cbn. lia.
Qed.

(** X9.  The output of the normalizer contains none of the accented
    characters of its table. *)
Theorem normalized_text_has_no_table_character text c :
  In c (normalize_turkish U text) -> ~ In c (map fst replacements).
Proof.
  rewrite (normalize_turkish_map U). intros H.
  apply in_map_iff in H as (c0 & <- & _). apply fold_char_not_key.
Qed.

(** X10.  A title whose extracted day, month and year do not form a
    calendar date is rejected. *)
Theorem invalid_date_no_match now title d m y :
  extract_day U title = Some d ->
  extract_month U title = Some m ->
  extract_year U title = Some y ->
  check_date_fields y m d = false ->
  is_earthquake_baslik U now title = None.
Proof.
  unfold extract_day, extract_month, extract_year, option_map, is_earthquake_baslik.
  intros Hd Hm Hy Hbad.
  destruct (re_search U day_re title) as [[i dt]|]; [|reflexivity].
  destruct (find_month MONTHS (str_lower U title)) as [[name m']|]; [|reflexivity].
  destruct (m' =? 0); [reflexivity|].
  destruct (re_search U (year_re U) title) as [[j yt]|]; [|reflexivity].
  cbn [snd] in Hd, Hm, Hy. simplify_eq.
  unfold is_date_current, datetime_new. rewrite Hbad. reflexivity.
Qed.

End CandidateFacts.

(** ** The window at the end of a month *)

Lemma days_before_next_year y :
  days_before_year (y + 1) = days_before_year y + 365 + (if is_leap y then 1 else 0).
Proof.
  unfold days_before_year, is_leap. cbv zeta.
  replace (y + 1 - 1) with y by lia.
  destruct (Z.eqb_spec (y mod 4) 0), (Z.eqb_spec (y mod 100) 0), (Z.eqb_spec (y mod 400) 0);
    cbn [negb andb orb]; Z.div_mod_to_equations; lia.
Qed.

Lemma days_in_month_range y m : 1 <= m <= 12 -> 28 <= days_in_month y m <= 31.
Proof.
  intros H. unfold days_in_month.
  enum_Z m 1 12%nat; destruct (is_leap y); simpl; lia.
Qed.

(** X11.  The window reaches across month and year ends: seen on the first
    day of the next month (or year), the last day of a month is current. *)
Theorem last_day_of_month_is_current_next_day now y m :
  1 <= y < 9999 -> 1 <= m <= 12 ->
  dt_date now = next_month_start y m ->
  is_date_current now (days_in_month y m) m y 1 = true.
Proof.
  intros Hy Hm Hnow. apply is_date_current_spec.
  pose proof (days_in_month_range y m Hm) as Hr.
  split.
  - unfold check_date_fields, MINYEAR, MAXYEAR.
    repeat (apply andb_true_iff; split); apply Z.leb_le; lia.
  - rewrite Hnow. unfold next_month_start, days_between, toordinal, ymd2ord.
    destruct (Z.eqb_spec m 12) as [->|Hne]; cbn [year month day].
    + rewrite days_before_next_year. unfold days_before_month, days_in_month.
      simpl. destruct (is_leap y); simpl; lia.
    + unfold days_before_month, days_in_month.
      enum_Z m 1 11%nat; destruct (is_leap y); simpl; lia.
Qed.

(** ** Decimal rendering of the dedup key *)

Lemma byte_of_ascii_inj a b : byte_of_ascii a = byte_of_ascii b -> a = b.
Proof.
  unfold byte_of_ascii. intros H. apply N2Z.inj in H.
  rewrite <- (ascii_N_embedding a), <- (ascii_N_embedding b), H. reflexivity.
Qed.

Lemma map_byte_of_ascii_inj l1 l2 :
  map byte_of_ascii l1 = map byte_of_ascii l2 -> l1 = l2.
Proof.
  revert l2. induction l1 as [|a l1 IH]; intros [|b l2] H; try discriminate; [reflexivity|].
  cbn in H. injection H as Ha Hl. f_equal; [apply byte_of_ascii_inj; exact Ha | auto].
Qed.

Lemma list_ascii_of_string_inj s1 s2 :
  list_ascii_of_string s1 = list_ascii_of_string s2 -> s1 = s2.
Proof.
  intros H. rewrite <- (string_of_list_ascii_of_string s1),
    <- (string_of_list_ascii_of_string s2), H. reflexivity.
Qed.

Lemma string_of_uint_inj d1 d2 :
  NilEmpty.string_of_uint d1 = NilEmpty.string_of_uint d2 -> d1 = d2.
Proof.
  intros H. pose proof (NilEmpty.usu d1) as H1. pose proof (NilEmpty.usu d2) as H2.
  rewrite H in H1. congruence.
Qed.

Lemma str_of_int_inj n m :
  0 <= n -> 0 <= m -> str_of_int n = str_of_int m -> n = m.
Proof.
  intros Hn Hm. unfold str_of_int.
  destruct (Z.ltb_spec n 0) as [?|_]; [lia|]. destruct (Z.ltb_spec m 0) as [?|_]; [lia|].
  intros H. apply map_byte_of_ascii_inj, list_ascii_of_string_inj, string_of_uint_inj in H.
  assert (E : Z.to_N (Z.abs n) = Z.to_N (Z.abs m)).
  { rewrite <- (DecimalN.Unsigned.of_to (Z.to_N (Z.abs n))),
      <- (DecimalN.Unsigned.of_to (Z.to_N (Z.abs m))), H. reflexivity. }
  apply (f_equal Z.of_N) in E. rewrite !Z2N.id in E by lia. lia.
Qed.

Lemma string_of_uint_digits d :
  Forall (fun c => 48 <= c <= 57)
         (map byte_of_ascii (list_ascii_of_string (NilEmpty.string_of_uint d))).
Proof.
  induction d; cbn; constructor; auto; vm_compute; split; discriminate.
Qed.

Lemma str_of_int_no_hyphen n : 0 <= n -> ~ In 45 (str_of_int n).
Proof.
  intros Hn. unfold str_of_int. destruct (Z.ltb_spec n 0) as [?|_]; [lia|].
  intros Hin. pose proof (string_of_uint_digits (N.to_uint (Z.to_N (Z.abs n)))) as Hd.
  rewrite Forall_forall in Hd. apply list_elem_of_In in Hin. apply Hd in Hin. lia.
Qed.

Lemma split_at_hyphen (a a' r r' : str) :
  ~ In 45 a -> ~ In 45 a' -> a ++ 45 :: r = a' ++ 45 :: r' -> a = a' /\ r = r'.
Proof.
  revert a'. induction a as [|x a IH]; intros [|x' a'] Ha Ha' H; cbn in H.
  - injection H as ->. auto.
  - injection H as <- _. exfalso. apply Ha'. left. reflexivity.
  - injection H as -> _. exfalso. apply Ha. left. reflexivity.
  - injection H as -> H. destruct (IH a') as [-> ->]; auto.
    + intros Hin. apply Ha. right. exact Hin.
    + intros Hin. apply Ha'. right. exact Hin.
Qed.

(** The key determines the identity, for non-negative date fields. *)
Lemma earthquake_id_inj c1 c2 :
  0 <= c_day c1 -> 0 <= c_month c1 -> 0 <= c_year c1 ->
  0 <= c_day c2 -> 0 <= c_month c2 -> 0 <= c_year c2 ->
  earthquake_id c1 = earthquake_id c2 -> event_identity c1 = event_identity c2.
Proof.
  intros Hd1 Hm1 Hy1 Hd2 Hm2 Hy2. unfold earthquake_id, event_identity. cbn [app].
  intros H.
  apply split_at_hyphen in H as [Ed H]; auto using str_of_int_no_hyphen.
  apply split_at_hyphen in H as [Em H]; auto using str_of_int_no_hyphen.
  apply split_at_hyphen in H as [Ey H]; auto using str_of_int_no_hyphen.
  apply str_of_int_inj in Ed, Em, Ey; auto. congruence.
Qed.

Section KeyFacts.
Context (U : UnicodeDB).

Lemma int_of_str_nonneg s : 0 <= int_of_str U s.
Proof.
  unfold int_of_str.
  assert (G : forall acc, 0 <= acc ->
    0 <= fold_left (fun acc c => acc * 10 + default 0 (todecimal U c)) s acc).
  { induction s as [|c s IH]; intros acc Hacc; cbn; [exact Hacc|].
    apply IH. destruct (todecimal U c) as [v|] eqn:E; cbn; [|lia].
    pose proof (todecimal_range U c v E). lia. }
  apply G. lia.
Qed.

Lemma candidate_fields_nonneg now title c :
  is_earthquake_baslik U now title = Some c ->
  0 <= c_day c /\ 0 <= c_month c /\ 0 <= c_year c.
Proof.
  intros H.
  destruct (detect_some_inv U _ _ _ H)
    as (i & dt & j & yt & _ & Hm & _ & Ed & Ey & _).
  rewrite Ed, Ey. split; [apply int_of_str_nonneg|]. split; [|apply int_of_str_nonneg].
  apply find_some in Hm as [Hm _].
  pose proof (proj1 (forallb_forall _ _) months_in_range _ Hm) as Hr.
  cbn [snd] in Hr. apply andb_true_iff in Hr as [Hr _]. apply Z.leb_le in Hr. lia.
Qed.

(** X12.  The dedup key is exact: two candidates of the detector with the
    same key string have the same day, month, year and province. *)
Theorem dedup_key_determines_identity now1 title1 c1 now2 title2 c2 :
  is_earthquake_baslik U now1 title1 = Some c1 ->
  is_earthquake_baslik U now2 title2 = Some c2 ->
  earthquake_id c1 = earthquake_id c2 ->
  event_identity c1 = event_identity c2.
Proof.
  intros H1 H2.
  destruct (candidate_fields_nonneg _ _ _ H1) as (? & ? & ?).
  destruct (candidate_fields_nonneg _ _ _ H2) as (? & ? & ?).
  apply earthquake_id_inj; assumption.
Qed.

End KeyFacts.

(** ** Runs of the loop *)

Section RunFacts.
Context (U : UnicodeDB).

Lemma call_from_topic_cons o basliks e :
  call_from_topic U basliks e -> call_from_topic U (o :: basliks) e.
Proof.
  destruct e as [k|b pm oc| |s]; cbn; auto.
  intros (ob & Hin & H). exists ob. split; [right; exact Hin|exact H].
Qed.

Lemma replay_grows d t d' : replay d t = Some d' -> d ⊆ d'.
Proof.
  revert d. induction t as [|e t IH]; intros d H; cbn in H.
  - injection H as <-. reflexivity.
  - destruct e as [k|b pm o| |s]; auto.
    destruct (bool_decide _); [discriminate|].
    apply IH in H. destruct o; set_solver.
Qed.

(** The identities a replay ends with are the initial ones and those of
    the calls that returned. *)
Lemma replay_elem d t d' :
  replay d t = Some d' ->
  forall id, id ∈ d' <->
    id ∈ d \/ exists b pm, In (SinkCall b pm SinkOk) t /\ earthquake_id pm = id.
Proof.
  revert d. induction t as [|e t IH]; intros d H id; cbn in H.
  - injection H as <-. split; [auto|]. intros [H|(b & pm & [] & _)]. exact H.
  - assert (Hskip : (forall b pm, e <> SinkCall b pm SinkOk) -> replay d t = Some d' ->
        id ∈ d' <-> id ∈ d \/ exists b pm, In (SinkCall b pm SinkOk) (e :: t) /\ earthquake_id pm = id).
    { intros Hne Hr. rewrite (IH _ Hr id). split.
      - intros [Hd|(b & pm & Hin & Hid)]; [auto|]. right. exists b, pm. split; [right|]; auto.
      - intros [Hd|(b & pm & [He|Hin] & Hid)]; [auto| |].
        + exfalso. exact (Hne _ _ He).
        + right. eauto. }
    destruct e as [k|b pm o| |s]; try (apply Hskip; [discriminate|exact H]).
    destruct (bool_decide _); [discriminate|]. destruct o.
    + rewrite (IH _ H id). split.
      * intros [Hd|(b' & pm' & Hin & Hid)].
        -- apply elem_of_union in Hd as [Hd|Hd]; [|auto].
           apply elem_of_singleton in Hd. right. exists b, pm. split; [left; reflexivity|auto].
        -- right. exists b', pm'. split; [right|]; auto.
      * intros [Hd|(b' & pm' & [He|Hin] & Hid)].
        -- left. apply elem_of_union. right. exact Hd.
        -- injection He as <- <-. left. apply elem_of_union. left.
           apply elem_of_singleton. symmetry. exact Hid.
        -- right. eauto.
    + apply Hskip; [discriminate|exact H].
Qed.

(** The calls of the [for] loop come from the topics, in a set that only
    grows; when the sink returns for every topic the loop does not raise
    and every candidate's key ends up in the set. *)
Lemma check_basliks_calls basliks : forall st r st',
  check_basliks U basliks st = (r, st') ->
  exists evs,
    trace st' = trace st ++ evs /\
    Forall (call_from_topic U basliks) evs /\
    (sink_always_returns basliks ->
       r = Returned tt /\
       forall pm, detected_in U basliks pm -> earthquake_id pm ∈ detected_earthquakes st').
Proof.
  induction basliks as [|o rest IH]; intros st r st' H.
  - injection H as <- <-. exists []. rewrite app_nil_r. split; [reflexivity|].
    split; [constructor|]. intros _. split; [reflexivity|].
    intros pm (ob & [] & _).
  - rewrite (check_basliks_cons U) in H.
    assert (Hrest : sink_always_returns (o :: rest) -> sink_always_returns rest).
    { intros Hs ob Hin. apply Hs. right. exact Hin. }
    assert (Hgrow : forall st1 r1 st1', check_basliks U rest st1 = (r1, st1') ->
              detected_earthquakes st1 ⊆ detected_earthquakes st1').
    { intros st1 r1 st1' H1.
      apply (check_basliks_spec U) in H1 as (evs & _ & _ & Hre & _).
      exact (replay_grows _ _ _ Hre). }
    destruct (is_earthquake_baslik U (o_now o) (title (o_baslik o))) as [pm|] eqn:Ed.
    + destruct (bool_decide (earthquake_id pm ∈ detected_earthquakes st)) eqn:Ein.
      * apply bool_decide_eq_true in Ein. pose proof (Hgrow _ _ _ H) as Hsub.
        apply IH in H as (evs & Htr & Hall & Hok). exists evs.
        split; [exact Htr|]. split.
        { eapply Forall_impl; [exact Hall|]. intros e. apply call_from_topic_cons. }
        intros Hs. destruct (Hok (Hrest Hs)) as [-> Hin]. split; [reflexivity|].
        intros pm' (ob & [<-|Hob] & Hd).
        -- rewrite Ed in Hd. injection Hd as <-.
           exact (proj1 (elem_of_subseteq _ _) Hsub _ Ein).
        -- apply Hin. exists ob. auto.
      * apply bool_decide_eq_false in Ein. destruct (o_sink o) eqn:Eo.
        -- pose proof (Hgrow _ _ _ H) as Hsub. cbn [detected_earthquakes] in Hsub.
           apply IH in H as (evs & Htr & Hall & Hok). cbn [trace] in Htr.
           exists (SinkCall (o_baslik o) pm SinkOk :: evs).
           split; [rewrite Htr, <- app_assoc; reflexivity|]. split.
           { constructor.
             - exists o. repeat split; auto. left. reflexivity.
             - eapply Forall_impl; [exact Hall|]. intros e. apply call_from_topic_cons. }
           intros Hs. destruct (Hok (Hrest Hs)) as [-> Hin]. split; [reflexivity|].
           intros pm' (ob & [<-|Hob] & Hd).
           ++ rewrite Ed in Hd. injection Hd as <-.
              apply (proj1 (elem_of_subseteq _ _) Hsub), elem_of_union. left.
              apply elem_of_singleton. reflexivity.
           ++ apply Hin. exists ob. auto.
        -- injection H as <- <-. exists [SinkCall (o_baslik o) pm SinkRaises].
           split; [reflexivity|]. split.
           { constructor; [|constructor]. exists o. repeat split; auto. left. reflexivity. }
           intros Hs. rewrite (Hs o (or_introl eq_refl)) in Eo. discriminate.
    + apply IH in H as (evs & Htr & Hall & Hok). exists evs.
      split; [exact Htr|]. split.
      { eapply Forall_impl; [exact Hall|]. intros e. apply call_from_topic_cons. }
      intros Hs. destruct (Hok (Hrest Hs)) as [-> Hin]. split; [reflexivity|].
      intros pm' (ob & [<-|Hob] & Hd).
      * rewrite Ed in Hd. discriminate.
      * apply Hin. exists ob. auto.
Qed.


(** The events of one iteration: the heartbeat if any, the sink calls for
    topics of the cycle, then the sleep, after the error record when a
    call raised. *)
Lemma cycle_shape basliks st :
  exists evs tail,
    trace (cycle U basliks st)
      = trace st ++ cycle_heartbeat basliks (fetch_count st + 1) ++ evs ++ tail /\
    Forall (call_from_topic U basliks) evs /\
    (tail = [Sleep POLL_INTERVAL] \/ tail = [UnexpectedError; Sleep POLL_INTERVAL]) /\
    (sink_always_returns basliks ->
       forall pm, detected_in U basliks pm ->
         earthquake_id pm ∈ detected_earthquakes (cycle U basliks st)).
Proof.
  unfold cycle, try_except. destruct basliks as [|o rest].
  - rewrite (poll_nil U). exists [], [Sleep POLL_INTERVAL]. cbn [trace cycle_heartbeat app].
    split; [reflexivity|]. split; [constructor|]. split; [auto|].
    intros _ pm (ob & [] & _).
  - rewrite (poll_cons U). cbn [cycle_heartbeat].
    destruct (check_basliks U (o :: rest) _) as [r st3] eqn:E.
    apply check_basliks_calls in E as (evs & Htr & Hall & Hok). cbn [trace] in Htr.
    destruct r as [[]|].
    + exists evs, [Sleep POLL_INTERVAL]. cbn [trace detected_earthquakes].
      split; [rewrite Htr, <- !app_assoc; reflexivity|]. split; [exact Hall|].
      split; [auto|]. intros Hs. exact (proj2 (Hok Hs)).
    + rewrite handler_state. exists evs, [UnexpectedError; Sleep POLL_INTERVAL].
      cbn [trace detected_earthquakes].
      split; [rewrite Htr, <- !app_assoc; reflexivity|]. split; [exact Hall|].
      split; [auto|]. intros Hs. destruct (Hok Hs) as [Hr _]. discriminate.
Qed.

Lemma cycle_grows basliks st :
  detected_earthquakes st ⊆ detected_earthquakes (cycle U basliks st).
Proof.
  destruct (cycle_spec U basliks st) as (evs & _ & _ & Hre & _).
  exact (replay_grows _ _ _ Hre).
Qed.

Lemma run_grows cycles : forall st,
  detected_earthquakes st ⊆ detected_earthquakes (run U cycles st).
Proof.
  induction cycles as [|c cycles IH]; intros st; [reflexivity|].
  rewrite (run_cons U). etransitivity; [apply (cycle_grows c)|apply IH].
Qed.

Lemma sleeps_app a b : sleeps (a ++ b) = sleeps a ++ sleeps b.
Proof. unfold sleeps. apply flat_map_app. Qed.

Lemma sleeps_calls basliks evs :
  Forall (call_from_topic U basliks) evs -> sleeps evs = [].
Proof.
  induction 1 as [|e evs He _ IH]; [reflexivity|].
  destruct e; cbn in He |- *; try contradiction. exact IH.
Qed.

Lemma sleeps_cycle_heartbeat basliks k : sleeps (cycle_heartbeat basliks k) = [].
Proof.
  unfold cycle_heartbeat, heartbeat_events.
  destruct basliks; [reflexivity|]. destruct (_ =? 0); reflexivity.
Qed.

Lemma in_cycle_heartbeat b pm o basliks k : ~ In (SinkCall b pm o) (cycle_heartbeat basliks k).
Proof.
  unfold cycle_heartbeat, heartbeat_events.
  destruct basliks; [intros []|]. destruct (_ =? 0); [intros [H|[]]; discriminate|intros []].
Qed.

(** What a run of the loop emits. *)
Lemma run_shape cycles : forall st,
  exists evs,
    trace (run U cycles st) = trace st ++ evs /\
    (forall b pm o, In (SinkCall b pm o) evs ->
       exists basliks, In basliks cycles /\ call_from_topic U basliks (SinkCall b pm o)) /\
    sleeps evs = repeat POLL_INTERVAL (length cycles) /\
    ((forall basliks, In basliks cycles -> sink_always_returns basliks) ->
     forall basliks pm, In basliks cycles -> detected_in U basliks pm ->
       earthquake_id pm ∈ detected_earthquakes (run U cycles st)).
Proof.
  induction cycles as [|c cycles IH]; intros st.
  - exists []. rewrite app_nil_r. split; [reflexivity|]. split; [intros b pm o []|].
    split; [reflexivity|]. intros _ basliks pm [].
  - rewrite (run_cons U).
    destruct (cycle_shape c st) as (e1 & tail & Ht1 & Hall & Htail & Hok1).
    destruct (IH (cycle U c st)) as (e2 & Ht2 & Hfrom & Hsl & Hok2).
    exists ((cycle_heartbeat c (fetch_count st + 1) ++ e1 ++ tail) ++ e2).
    split; [rewrite Ht2, Ht1, <- !app_assoc; reflexivity|]. split; [|split].
    + intros b pm o Hin. apply in_app_or in Hin as [Hin|Hin].
      * exists c. split; [left; reflexivity|].
        apply in_app_or in Hin as [Hin|Hin]; [exfalso; exact (in_cycle_heartbeat _ _ _ _ _ Hin)|].
        apply in_app_or in Hin as [Hin|Hin].
        -- rewrite Forall_forall in Hall. apply Hall. apply list_elem_of_In. exact Hin.
        -- exfalso. destruct Htail as [-> | ->];
             repeat (destruct Hin as [Hin|Hin]; [discriminate|]); exact Hin.
      * destruct (Hfrom _ _ _ Hin) as (basliks & Hb & Hc).
        exists basliks. split; [right; exact Hb|exact Hc].
    + rewrite !sleeps_app, sleeps_cycle_heartbeat, (sleeps_calls _ _ Hall), Hsl.
      destruct Htail as [-> | ->]; reflexivity.
    + intros Hs basliks pm [<-|Hin] Hd.
      * apply (proj1 (elem_of_subseteq _ _) (run_grows cycles _)).
        apply Hok1; [|exact Hd]. apply Hs. left. reflexivity.
      * apply (Hok2 (fun b Hb => Hs b (or_intror Hb)) basliks pm Hin Hd).
Qed.

(** X13.  Every sink call of a run is for a topic fetched in one of its
    cycles, with the candidate the detector returns for the title of that
    topic at the clock reading of that moment. *)
Theorem sink_calls_come_from_detected_topics cycles b pm o :
  In (SinkCall b pm o) (trace (monitor_earthquakes U cycles)) ->
  exists basliks ob,
    In basliks cycles /\ In ob basliks /\ o_baslik ob = b /\ o_sink ob = o /\
    is_earthquake_baslik U (o_now ob) (title b) = Some pm.
Proof.
  unfold monitor_earthquakes.
  destruct (run_shape cycles initial_state) as (evs & Ht & Hfrom & _).
  cbn [trace initial_state app] in Ht. rewrite Ht. intros Hin.
  destruct (Hfrom _ _ _ Hin) as (basliks & Hb & ob & Hob & H).
  exists basliks, ob. tauto.
Qed.

(** The sleeps of the body of the [try]: one when it returns, none when
    it raises; the fetch is counted when [fetch_gundem] returned. *)
Lemma poll_with_sleeps inp st r st1 :
  poll_with U inp st = (r, st1) ->
  exists evs,
    trace st1 = trace st ++ evs /\
    fetch_count st1 = fetch_count st + Z.of_nat (fetches_returned [inp]) /\
    sleeps evs = match r with Returned _ => [POLL_INTERVAL] | Raised => [] end.
Proof.
  assert (Hpoll : forall basliks, it_fetch inp = Some basliks ->
    poll U basliks st = (r, st1) ->
    exists evs,
      trace st1 = trace st ++ evs /\
      fetch_count st1 = fetch_count st + Z.of_nat (fetches_returned [inp]) /\
      sleeps evs = match r with Returned _ => [POLL_INTERVAL] | Raised => [] end).
  { intros basliks Ef. unfold fetches_returned. cbn [List.filter]. rewrite Ef.
    destruct basliks as [|o rest].
    - rewrite (poll_nil U). intros [= <- <-]. exists [Sleep POLL_INTERVAL].
      repeat split; reflexivity.
    - rewrite (poll_cons U).
      destruct (check_basliks U (o :: rest) _) as [r3 st3] eqn:E.
      pose proof (check_basliks_spec U _ _ _ _ E) as (evs' & _ & Hfc & _).
      apply check_basliks_calls in E as (evs & Htr & Hall & _).
      cbn [trace fetch_count] in Htr, Hfc.
      assert (Hhb : sleeps (heartbeat_events (fetch_count st + 1)) = []).
      { exact (sleeps_cycle_heartbeat (o :: rest) _). }
      destruct r3 as [[]|]; intros [= <- <-]; cbn [trace fetch_count].
      + exists (heartbeat_events (fetch_count st + 1) ++ evs ++ [Sleep POLL_INTERVAL]).
        split; [rewrite Htr, <- !app_assoc; reflexivity|]. split; [exact Hfc|].
        rewrite !sleeps_app, Hhb, (sleeps_calls _ _ Hall). reflexivity.
      + exists (heartbeat_events (fetch_count st + 1) ++ evs).
        split; [rewrite Htr, <- !app_assoc; reflexivity|]. split; [exact Hfc|].
        rewrite !sleeps_app, Hhb, (sleeps_calls _ _ Hall). reflexivity. }
  destruct (it_fetch inp) as [basliks|] eqn:Ef.
  - destruct (it_heartbeat_log inp) eqn:Eh.
    + rewrite (poll_with_logged U inp basliks st Ef Eh). apply Hpoll. reflexivity.
    + destruct (Z.eq_dec ((fetch_count st + 1) mod HEARTBEAT_INTERVAL) 0) as [Hmod|Hmod].
      * destruct basliks as [|o rest].
        -- unfold poll_with. rewrite Ef. apply (Hpoll []). reflexivity.
        -- rewrite (poll_with_heartbeat_raises U inp o rest st Ef Eh Hmod).
           intros [= <- <-]. exists []. cbn [trace fetch_count]. rewrite app_nil_r.
           unfold fetches_returned. cbn [List.filter]. rewrite Ef.
           repeat split; reflexivity.
      * rewrite (poll_with_not_due U inp basliks st Ef Hmod). apply Hpoll. reflexivity.
  - rewrite (poll_with_none U inp st Ef). intros [= <- <-]. exists [].
    rewrite app_nil_r. unfold fetches_returned. cbn [List.filter]. rewrite Ef.
    cbn. split; [reflexivity|]. split; [lia|reflexivity].
Qed.

(** The sleeps of one iteration: one when the loop goes on, none when it
    ends. *)
Lemma iteration_sleeps inp st :
  exists evs,
    trace (state_of (iteration U inp st)) = trace st ++ evs /\
    fetch_count (state_of (iteration U inp st))
      = fetch_count st + Z.of_nat (fetches_returned [inp]) /\
    sleeps evs = match iteration U inp st with
                 | Continues _ => [POLL_INTERVAL]
                 | Ends _ => []
                 end.
Proof.
  rewrite (iteration_eq U). destruct (poll_with U inp st) as [r st1] eqn:E.
  apply poll_with_sleeps in E as (evs & Htr & Hfc & Hsl).
  destruct r as [[]|]; [|destruct (it_handler_log inp)];
    cbn [state_of trace fetch_count].
  - exists evs. auto.
  - exists (evs ++ [UnexpectedError; Sleep POLL_INTERVAL]).
    split; [rewrite Htr, <- app_assoc; reflexivity|]. split; [exact Hfc|].
    rewrite sleeps_app, Hsl. reflexivity.
  - exists evs. auto.
Qed.

Lemma fetches_returned_cons inp inputs :
  fetches_returned (inp :: inputs)
  = (fetches_returned [inp] + fetches_returned inputs)%nat.
Proof.
  unfold fetches_returned. cbn [List.filter].
  destruct (it_fetch inp); reflexivity.
Qed.

(** What a run of iterations sleeps and counts, up to the end of the
    list or to the iteration that ends the loop. *)
Lemma run_until_sleeps inputs : forall st,
  exists evs,
    trace (state_of (run_until U inputs st)) = trace st ++ evs /\
    match run_until U inputs st with
    | Continues st' =>
        fetch_count st' = fetch_count st + Z.of_nat (fetches_returned inputs) /\
        sleeps evs = repeat POLL_INTERVAL (length inputs)
    | Ends st' =>
        exists k, (k < length inputs)%nat /\
          fetch_count st'
            = fetch_count st + Z.of_nat (fetches_returned (take (S k) inputs)) /\
          sleeps evs = repeat POLL_INTERVAL k
    end.
Proof.
  induction inputs as [|inp inputs IH]; intros st.
  - exists []. cbn [run_until state_of]. rewrite app_nil_r.
    split; [reflexivity|]. split; [cbn; lia|reflexivity].
  - cbn [run_until].
    destruct (iteration_sleeps inp st) as (e1 & Ht1 & Hf1 & Hs1).
    destruct (iteration U inp st) as [st1|st1]; cbn [state_of] in Ht1, Hf1.
    + destruct (IH st1) as (e2 & Ht2 & H2). exists (e1 ++ e2).
      split; [rewrite Ht2, Ht1, <- app_assoc; reflexivity|].
      rewrite sleeps_app, Hs1.
      destruct (run_until U inputs st1) as [st'|st'].
      * destruct H2 as [Hf Hs]. split.
        -- rewrite Hf, Hf1, (fetches_returned_cons inp inputs). lia.
        -- rewrite Hs. reflexivity.
      * destruct H2 as (k & Hk & Hf & Hs). exists (S k). cbn [length].
        split; [lia|]. split.
        -- rewrite Hf, Hf1. change (take (S (S k)) (inp :: inputs))
             with (inp :: take (S k) inputs).
           rewrite (fetches_returned_cons inp (take (S k) inputs)). lia.
        -- rewrite Hs. reflexivity.
    + exists e1. cbn [state_of]. split; [exact Ht1|].
      exists 0%nat. cbn [length]. split; [lia|].
      change (take 1 (inp :: inputs)) with [inp]. split; [exact Hf1|exact Hs1].
Qed.

(** X14.  Every iteration after which the loop goes on has slept once, for
    the poll interval, whatever it fetched and whether or not a call
    raised in it: there is no other waiting time and no backoff.  The
    fetch counter counts the iterations in which the fetch returned.  When
    an exception of a log call ends the loop, in the iteration after [k]
    others, that last iteration has not slept. *)
Theorem every_completed_cycle_sleeps_once inputs st :
  match run_until U inputs st with
  | Continues st' =>
      fetch_count st' = fetch_count st + Z.of_nat (fetches_returned inputs) /\
      sleeps (events_since st st') = repeat POLL_INTERVAL (length inputs)
  | Ends st' =>
      exists k, (k < length inputs)%nat /\
        fetch_count st'
          = fetch_count st + Z.of_nat (fetches_returned (take (S k) inputs)) /\
        sleeps (events_since st st') = repeat POLL_INTERVAL k
  end.
Proof.
  unfold events_since.
  destruct (run_until_sleeps inputs st) as (evs & Ht & H).
  destruct (run_until U inputs st) as [st'|st']; cbn [state_of] in Ht;
    rewrite Ht, drop_app_length; exact H.
Qed.

(** X15.  The dedup set only grows: no cycle, failed or not, removes an
    identity from it. *)
Theorem dedup_store_only_grows cycles st :
  detected_earthquakes st ⊆ detected_earthquakes (run U cycles st).
Proof. apply run_grows. Qed.

(** X16.  An identity key is in the dedup set after a run exactly when a
    sink call for it returned during the run. *)
Theorem dedup_store_is_the_recorded_calls cycles id :
  id ∈ detected_earthquakes (monitor_earthquakes U cycles) <->
  exists b pm,
    In (SinkCall b pm SinkOk) (trace (monitor_earthquakes U cycles)) /\
    earthquake_id pm = id.
Proof.
  unfold monitor_earthquakes.
  destruct (run_spec U cycles initial_state) as (evs & Ht & _ & Hre & _).
  cbn [trace initial_state detected_earthquakes app] in Ht, Hre.
  rewrite Ht, (replay_elem _ _ _ Hre id). split; [|auto].
  intros [H|H]; [|exact H]. exfalso. exact (not_elem_of_empty _ H).
Qed.




End RunFacts.

(** ** The topic list *)

Section FetchFacts.
Context (isspace : Z -> bool).

Lemma replace_single_char c s :
  str_replace [c] [] s = List.filter (fun x => negb (x =? c)) s.
Proof.
  unfold str_replace. induction s as [|x s IH]; [reflexivity|].
  cbn [replace_from starts_with length List.filter Nat.sub app].
  rewrite andb_true_r, (Z.eqb_sym c x). destruct (x =? c); cbn [negb]; [exact IH|].
  f_equal. exact IH.
Qed.

Lemma in_lstrip x s : In x (lstrip isspace s) -> In x s.
Proof.
  induction s as [|c s IH]; cbn; [auto|].
  destruct (isspace c); [intros H; right; auto|auto].
Qed.

Lemma in_strip x s : In x (strip isspace s) -> In x s.
Proof.
  unfold strip, rstrip. intros H. apply in_rev in H.
  apply in_lstrip in H. apply in_rev in H. apply in_lstrip in H. exact H.
Qed.

(** The title of an entry built from an anchor with a [small] element. *)
Lemma baslik_of_item_small it a href ec b :
  li_anchor it = Some a -> a_href a = Some href -> a_small a = Some ec ->
  baslik_of_item isspace it = Some b ->
  title b = strip isspace (str_replace ec [] (a_text a)) /\ entry_count b = ec.
Proof.
  unfold baslik_of_item. intros -> -> ->.
  destruct (truthy_str href); [|discriminate]. intros [= <-]. split; reflexivity.
Qed.

Lemma baslik_of_item_anchor it b :
  baslik_of_item isspace it = Some b ->
  exists a href, li_anchor it = Some a /\ a_href a = Some href /\
                 truthy_str href = true /\ url b = href.
Proof.
  unfold baslik_of_item. destruct (li_anchor it) as [a|] eqn:Ea; [|discriminate].
  destruct (a_href a) as [href|] eqn:Eh; [|discriminate].
  destruct (truthy_str href) eqn:E; [|discriminate].
  destruct (a_small a); intros [= <-]; exists a, href;
    (split; [reflexivity|]); (split; [exact Eh|]); (split; [exact E|reflexivity]).
Qed.


(** X18.  When the entry count of a topic is one character, no occurrence
    of that character is left anywhere in the title of the entry built
    for it. *)
Theorem single_character_count_is_erased it a c b :
  li_anchor it = Some a -> a_small a = Some [c] ->
  baslik_of_item isspace it = Some b ->
  ~ In c (title b).
Proof.
  intros Ha Hs Hb.
  destruct (baslik_of_item_anchor it b Hb) as (a' & href & Ha' & Hh & _).
  rewrite Ha in Ha'. injection Ha' as <-.
  destruct (baslik_of_item_small it a href [c] b Ha Hh Hs Hb) as [-> _].
  intros Hin. apply in_strip in Hin. rewrite replace_single_char in Hin.
  apply filter_In in Hin as [_ Hc]. rewrite Z.eqb_refl in Hc. discriminate.
Qed.


Lemma lstrip_head s c : head (lstrip isspace s) = Some c -> isspace c = false.
Proof.
  induction s as [|x s IH]; cbn; [discriminate|].
  destruct (isspace x) eqn:E; [exact IH|]. cbn. intros [= <-]. exact E.
Qed.

Lemma lstrip_suffix s : exists sp, s = sp ++ lstrip isspace s.
Proof.
  induction s as [|x s [sp IH]]; cbn; [exists []; reflexivity|].
  destruct (isspace x); [|exists []; reflexivity].
  exists (x :: sp). cbn. f_equal. exact IH.
Qed.

Lemma last_rev (l : str) : last (rev l) = head l.
Proof. destruct l as [|x l]; [reflexivity|]. cbn [rev]. apply last_snoc. Qed.

Lemma rstrip_last s c : last (rstrip isspace s) = Some c -> isspace c = false.
Proof.
  unfold rstrip. rewrite last_rev. apply lstrip_head.
Qed.

Lemma rstrip_head s c :
  head (rstrip isspace s) = Some c -> head s = Some c.
Proof.
  unfold rstrip. destruct (lstrip_suffix (rev s)) as [sp Hsp].
  intros H. assert (Hs : s = rev (lstrip isspace (rev s)) ++ rev sp).
  { rewrite <- rev_app_distr, <- Hsp, rev_involutive. reflexivity. }
  rewrite Hs. destruct (rev (lstrip isspace (rev s))) as [|x l]; [discriminate|].
  exact H.
Qed.

(** X20.  The title of an entry built from an anchor with a [small]
    element neither starts nor ends with white space. *)
Theorem title_of_counted_topic_is_stripped it a ec b :
  li_anchor it = Some a -> a_small a = Some ec ->
  baslik_of_item isspace it = Some b ->
  (forall c, head (title b) = Some c -> isspace c = false) /\
  (forall c, last (title b) = Some c -> isspace c = false).
Proof.
  intros Ha Hs Hb.
  destruct (baslik_of_item_anchor it b Hb) as (a' & href & Ha' & Hh & _).
  rewrite Ha in Ha'. injection Ha' as <-.
  destruct (baslik_of_item_small it a href ec b Ha Hh Hs Hb) as [-> _].
  unfold strip. split; intros c H.
  - apply rstrip_head in H. exact (lstrip_head _ _ H).
  - exact (rstrip_last _ _ H).
Qed.

Lemma replace_from_skip_all old new s skip :
  (length s <= skip)%nat -> replace_from old new skip s = [].
Proof.
  revert skip. induction s as [|c s IH]; intros skip H; [reflexivity|].
  cbn in H. destruct skip as [|k]; [lia|]. cbn. apply IH. lia.
Qed.

Lemma replace_from_suffix old t :
  old <> [] ->
  (forall pre post, t ++ old = pre ++ post -> (length pre < length t)%nat ->
     starts_with old post = false) ->
  replace_from old [] 0 (t ++ old) = t.
Proof.
  intros Hold. induction t as [|x t IH]; intros Hno.
  - destruct old as [|c o]; [congruence|]. cbn [app replace_from].
    assert (Hs : starts_with (c :: o) (c :: o) = true).
    { apply starts_with_spec. exists []. rewrite app_nil_r. reflexivity. }
    rewrite Hs. cbn [app]. apply replace_from_skip_all. cbn. lia.
  - cbn [app replace_from].
    rewrite (Hno [] (x :: t ++ old) eq_refl) by (cbn; lia).
    f_equal. apply IH. intros pre post Heq Hlt.
    apply (Hno (x :: pre) post); [cbn; rewrite Heq; reflexivity | cbn; lia].
Qed.

(** A check that [w] occurs in [s] nowhere before its last [length w]
    characters. *)
Lemma occurs_only_at_end_check (w s : str) :
  forallb (fun i => negb (starts_with w (drop i s))) (seq 0 (length s - length w)) = true ->
  forall pre post, s = pre ++ w ++ post -> post = [].
Proof.
  intros H pre post Heq. destruct post as [|x post]; [reflexivity|]. exfalso.
  rewrite forallb_forall in H.
  assert (Hin : In (length pre) (seq 0 (length s - length w))).
  { apply in_seq. rewrite Heq, !length_app. cbn [length]. lia. }
  apply H in Hin. rewrite Heq, drop_app_length in Hin.
  assert (Hs : starts_with w (w ++ x :: post) = true) by (apply starts_with_spec; eauto).
  rewrite Hs in Hin. discriminate.
Qed.

(** X21.  When the entry count is not empty and occurs in the text of the
    anchor only once, as its end, the title is the text before it,
    stripped. *)
Theorem trailing_count_is_removed it a ec t b :
  li_anchor it = Some a -> a_small a = Some ec -> ec <> [] ->
  a_text a = t ++ ec ->
  (forall pre post, a_text a = pre ++ ec ++ post -> post = []) ->
  baslik_of_item isspace it = Some b ->
  title b = strip isspace t /\ entry_count b = ec.
Proof.
  intros Ha Hs Hne Ht Honly Hb.
  destruct (baslik_of_item_anchor it b Hb) as (a' & href & Ha' & Hh & _).
  rewrite Ha in Ha'. injection Ha' as <-.
  destruct (baslik_of_item_small it a href ec b Ha Hh Hs Hb) as [-> ->].
  split; [|reflexivity]. f_equal. rewrite Ht. unfold str_replace.
  destruct ec as [|c0 ec0] eqn:Eec; [congruence|]. rewrite <- Eec in *.
  apply replace_from_suffix; [congruence|].
  intros pre post Heq Hlt.
  destruct (starts_with ec post) eqn:Es; [|reflexivity].
  apply starts_with_spec in Es as [post' ->].
  assert (Hp : post' = []) by (apply (Honly pre); rewrite Ht; exact Heq).
  subst post'. apply (f_equal (@length Z)) in Heq.
  rewrite !length_app in Heq. cbn [length] in Heq. exfalso. lia.
Qed.

End FetchFacts.

(* ================================================================== *)
(** * The properties on example titles and runs *)
(* ================================================================== *)

Local Open Scope string_scope.

(** The day search on titles with several numbers: the position and the
    text of the match. *)
Example day_search_leading_zero :
  re_search latin_db day_re (u "07 5 mart") = Some (3%nat, u "5").
Proof. vm_compute. reflexivity. Qed.

Example day_search_after_year :
  re_search latin_db day_re (u "2025 6") = Some (5%nat, u "6").
Proof. vm_compute. reflexivity. Qed.

Example day_search_inside_words :
  re_search latin_db day_re (u "a1 12x 3") = Some (7%nat, u "3").
Proof. vm_compute. reflexivity. Qed.

Example day_search_hyphen :
  re_search latin_db day_re (u "12-13") = Some (0%nat, u "12").
Proof. vm_compute. reflexivity. Qed.

Example day_search_underscore :
  re_search latin_db day_re (u "1_2 3") = Some (4%nat, u "3").
Proof. vm_compute. reflexivity. Qed.

Example day_search_out_of_range :
  re_search latin_db day_re (u "32 9") = Some (3%nat, u "9").
Proof. vm_compute. reflexivity. Qed.

Example ordinal_of_22_october_2025 : toordinal (Date 2025 10 22) = 739546.
Proof. reflexivity. Qed.

(** The sample titles of the source, seen on 22 October 2025. *)
Example sample_today :
  is_earthquake_baslik latin_db (at_noon 2025 10 22) (title istanbul_baslik)
  = Some istanbul_candidate.
Proof. vm_compute. reflexivity. Qed.

Example sample_yesterday :
  is_earthquake_baslik latin_db (at_noon 2025 10 22) (title mardin_baslik)
  = Some mardin_candidate.
Proof. vm_compute. reflexivity. Qed.

Example sample_months_old :
  is_earthquake_baslik latin_db (at_noon 2025 10 22) maras_accented = None.
Proof. vm_compute. reflexivity. Qed.

Example sample_no_province :
  is_earthquake_baslik latin_db (at_noon 2025 10 22)
    (u "21 ekim 2025 mattia ahmet minguzzi davası") = None.
Proof. vm_compute. reflexivity. Qed.

Example sample_dotted_capital :
  option_map c_province
    (is_earthquake_baslik latin_db (at_noon 2025 2 6) (u "6 şubat 2025 İstanbul depremi"))
  = Some (u "i̇stanbul").
Proof. vm_compute. reflexivity. Qed.

(** C1 on the title of February 6 seen on October 22. *)
Lemma temporal_filter_dominates_witness :
  extract_day latin_db maras_accented = Some 6 /\
  extract_month latin_db maras_accented = Some 2 /\
  extract_year latin_db maras_accented = Some 2025 /\
  check_date_fields 2025 2 6 = true /\
  1 < Z.abs (days_between (Date 2025 2 6) (dt_date (at_noon 2025 10 22))) /\
  is_earthquake_baslik latin_db (at_noon 2025 10 22) maras_accented = None.
Proof.
  repeat (split; [vm_compute; reflexivity|]).
  apply (temporal_filter_dominates latin_db _ _ 6 2 2025); vm_compute; reflexivity.
Defined.

(** C4 on a title without any day token. *)
Lemma missing_date_part_no_match_witness :
  (forall i n, ~ day_token_at latin_db (title quiet_baslik) i n) /\
  is_earthquake_baslik latin_db (at_noon 2025 10 22) (title quiet_baslik) = None.
Proof.
  assert (H : forall i n, ~ day_token_at latin_db (title quiet_baslik) i n).
  { apply extract_day_none. vm_compute. reflexivity. }
  split; [exact H|].
  apply missing_date_part_no_match. left. exact H.
Defined.

(** C5 on a title of the next day with a province and no keyword. *)
Lemma keyword_decides_confidence_witness :
  recognized_province latin_db (u "23 ekim 2025 ankara sarsıntısı") /\
  ~ has_keyword latin_db (u "23 ekim 2025 ankara sarsıntısı") /\
  exists c,
    is_earthquake_baslik latin_db (at_noon 2025 10 22)
      (u "23 ekim 2025 ankara sarsıntısı") = Some c /\
    c_day c = 23 /\ c_month c = 10 /\ c_year c = 2025 /\ In (c_province c) PROVINCES /\
    (has_keyword latin_db (u "23 ekim 2025 ankara sarsıntısı") -> c_confidence c = high) /\
    (~ has_keyword latin_db (u "23 ekim 2025 ankara sarsıntısı") -> c_confidence c = medium).
Proof.
  assert (Hp : recognized_province latin_db (u "23 ekim 2025 ankara sarsıntısı")).
  { exists (u "ankara"). split.
    - vm_compute. tauto.
    - left. apply search_word_spec. vm_compute. reflexivity. }
  split; [exact Hp|]. split.
  - intros Hk. apply has_keyword_spec in Hk. vm_compute in Hk. discriminate.
  - apply keyword_decides_confidence; try (vm_compute; reflexivity); [|exact Hp].
    vm_compute. discriminate.
Defined.

(** C10 on a title whose first number is not the day of the date. *)
Lemma day_is_leftmost_token_witness :
  is_earthquake_baslik latin_db (at_noon 2025 10 3) unrelated_number_first
    = Some {| c_day := 3; c_month := 10; c_month_name := u "ekim"; c_year := 2025;
              c_province := u "istanbul"; c_has_earthquake_keyword := true;
              c_confidence := high |} /\
  exists i,
    day_token_at latin_db unrelated_number_first i 3 /\
    forall j n, day_token_at latin_db unrelated_number_first j n ->
      (i <= j)%nat /\ (j = i -> n = 3).
Proof.
  split; [vm_compute; reflexivity|].
  apply (day_is_leftmost_token latin_db (at_noon 2025 10 3) unrelated_number_first
           {| c_day := 3; c_month := 10; c_month_name := u "ekim"; c_year := 2025;
              c_province := u "istanbul"; c_has_earthquake_keyword := true;
              c_confidence := high |}).
  vm_compute. reflexivity.
Defined.

(** C3: the title with "hakkâri" and the title with "hakkari" are the
    same but for the spelling of the province and have the same date
    fields, and they yield two identities. *)
Lemma hakkari_spellings_two_identities :
  hakkari_accented = (u "6 şubat 2025 " ++ u "hakkâri" ++ u " depremi")%list /\
  hakkari_folded = (u "6 şubat 2025 " ++ u "hakkari" ++ u " depremi")%list /\
  In (u "hakkâri") PROVINCES /\ In (u "hakkari") PROVINCES /\
  extract_day latin_db hakkari_accented = extract_day latin_db hakkari_folded /\
  extract_month latin_db hakkari_accented = extract_month latin_db hakkari_folded /\
  extract_year latin_db hakkari_accented = extract_year latin_db hakkari_folded /\
  option_map event_identity
    (is_earthquake_baslik latin_db (at_noon 2025 2 6) hakkari_accented)
    = Some (6, 2, 2025, u "hakkâri") /\
  option_map event_identity
    (is_earthquake_baslik latin_db (at_noon 2025 2 6) hakkari_folded)
    = Some (6, 2, 2025, u "hakkari") /\
  option_map event_identity
    (is_earthquake_baslik latin_db (at_noon 2025 2 6) hakkari_accented)
    <> option_map event_identity
         (is_earthquake_baslik latin_db (at_noon 2025 2 6) hakkari_folded).
Proof.
  repeat (split; [vm_compute; (reflexivity || tauto)|]).
  vm_compute. discriminate.
Qed.

(** C3 as amended, on the two spellings of Kahramanmaraş. *)
Lemma same_normalization_same_identity_witness :
  normalize_turkish latin_db maras_accented = normalize_turkish latin_db maras_folded /\
  option_map event_identity
    (is_earthquake_baslik latin_db (at_noon 2025 2 6) maras_accented)
  = option_map event_identity
      (is_earthquake_baslik latin_db (at_noon 2025 2 6) maras_folded) /\
  option_map event_identity
    (is_earthquake_baslik latin_db (at_noon 2025 2 6) maras_folded)
  = Some (6, 2, 2025, u "kahramanmaraş").
Proof.
  split; [vm_compute; reflexivity|]. split; [|vm_compute; reflexivity].
  apply same_normalization_same_identity; vm_compute; reflexivity.
Defined.

(** C6: the same title is a candidate on October 22 and is rejected on
    October 25. *)
Lemma same_title_two_dates :
  is_earthquake_baslik latin_db (at_noon 2025 10 22) (title istanbul_baslik)
    = Some istanbul_candidate /\
  is_earthquake_baslik latin_db (at_noon 2025 10 25) (title istanbul_baslik) = None /\
  is_earthquake_baslik latin_db (at_noon 2025 10 22) (title istanbul_baslik)
    <> is_earthquake_baslik latin_db (at_noon 2025 10 25) (title istanbul_baslik).
Proof.
  repeat (split; [vm_compute; reflexivity|]). vm_compute. discriminate.
Qed.

(** C6 as amended, on two clock readings of October 22. *)
Lemma detector_depends_on_title_and_date_witness :
  dt_date (at_time 2025 10 22 0 5) = dt_date (at_time 2025 10 22 23 55) /\
  is_earthquake_baslik latin_db (at_time 2025 10 22 0 5) (title istanbul_baslik)
  = is_earthquake_baslik latin_db (at_time 2025 10 22 23 55) (title istanbul_baslik).
Proof.
  split; [reflexivity|].
  apply detector_depends_on_title_and_date. reflexivity.
Defined.

(** C7.  The table of [normalize_turkish] has the entry that sends the
    capital dotted I to a plain i, but the text is lowercased before the
    table is applied, and lowercasing turns that one code point into an i
    followed by the combining dot above, which the table does not have:
    the entry is never used, and the output is longer than the input.  The
    other capitals of the table come out as the table says. *)
Lemma dotted_capital_i_grows :
  In (304, 105) replacements /\
  length (u "İ") = 1%nat /\
  normalize_turkish latin_db (u "İ") = [105; 775] /\
  ~ (length (normalize_turkish latin_db (u "İ")) <= length (u "İ"))%nat /\
  normalize_turkish latin_db (u "ĞÜŞÖÇ") = u "gusoc".
Proof.
  split; [vm_compute; tauto|].
  repeat (split; [vm_compute; reflexivity|]).
  split; [vm_compute; lia|vm_compute; reflexivity].
Qed.

(** C2: when the sink raises, the same identity has the sink called
    again, cycle after cycle. *)
Lemma sink_called_again_after_failure :
  ~ (calls_for (event_identity istanbul_candidate)
       (trace (monitor_earthquakes latin_db
                 [[seen istanbul_baslik SinkRaises];
                  [seen istanbul_baslik SinkRaises];
                  [seen istanbul_baslik SinkOk]])) <= 1)%nat.
Proof. vm_compute. lia. Qed.

(** C2 as amended, on a cycle with two events. *)
Lemma no_call_after_recorded_witness :
  trace (monitor_earthquakes latin_db
           [[seen istanbul_baslik SinkOk; seen mardin_baslik SinkOk;
             seen istanbul_baslik SinkOk]])
  = ([] ++ SinkCall istanbul_baslik istanbul_candidate SinkOk
        :: [SinkCall mardin_baslik mardin_candidate SinkOk; Sleep 30])%list /\
  forall b' pm' o',
    In (SinkCall b' pm' o') [SinkCall mardin_baslik mardin_candidate SinkOk; Sleep 30] ->
    event_identity pm' <> event_identity istanbul_candidate.
Proof.
  split; [vm_compute; reflexivity|].
  apply (no_call_after_recorded latin_db
           [[seen istanbul_baslik SinkOk; seen mardin_baslik SinkOk;
             seen istanbul_baslik SinkOk]] [] istanbul_baslik).
  vm_compute. reflexivity.
Defined.

(** C8: the identity whose recording failed in the first iteration is
    sent to the sink again in the second. *)
Lemma failed_identity_emitted_again :
  trace (state_of (run_until latin_db
                     [logged [seen istanbul_baslik SinkRaises];
                      logged [seen istanbul_baslik SinkOk]] initial_state))
  = [SinkCall istanbul_baslik istanbul_candidate SinkRaises; UnexpectedError; Sleep 30;
     Heartbeat 2; SinkCall istanbul_baslik istanbul_candidate SinkOk; Sleep 30].
Proof. vm_compute. reflexivity. Qed.

(** C8 as amended, on a first iteration whose sink call raises and whose
    handler writes its line. *)
Lemma failed_call_is_retried_witness :
  let inp := logged [seen istanbul_baslik SinkRaises] in
  In (SinkCall istanbul_baslik istanbul_candidate SinkRaises)
     (events_since initial_state (state_of (iteration latin_db inp initial_state))) /\
  it_handler_log inp = LogOk /\
  exists st1,
    iteration latin_db inp initial_state = Continues st1 /\
    fetch_count st1 = 1 /\
    In (SinkCall istanbul_baslik istanbul_candidate SinkOk)
       (events_since st1
          (state_of (iteration latin_db (logged [seen istanbul_baslik SinkOk]) st1))).
Proof.
  assert (H : In (SinkCall istanbul_baslik istanbul_candidate SinkRaises)
                 (events_since initial_state
                    (state_of (iteration latin_db (logged [seen istanbul_baslik SinkRaises])
                                         initial_state)))).
  { vm_compute. left. reflexivity. }
  destruct (failed_call_is_retried latin_db _ _ _ _ H) as (_ & Hgo).
  destruct (Hgo eq_refl) as (st1 & E1 & _ & Hf & Hretry).
  split; [exact H|]. split; [reflexivity|].
  exists st1. split; [exact E1|]. split; [exact Hf|].
  apply (Hretry (logged [seen istanbul_baslik SinkOk]) (seen istanbul_baslik SinkOk) []
                istanbul_candidate);
    [reflexivity | reflexivity | vm_compute; reflexivity | reflexivity].
Defined.

(** The same failure when the handler cannot write its line: the exception
    of [log_message] leaves the loop before the sleep, and the second
    iteration does not run. *)
Example handler_log_failure_ends_the_loop :
  exists st,
    run_until latin_db
      [{| it_fetch := Some [seen istanbul_baslik SinkRaises];
          it_heartbeat_log := LogOk; it_handler_log := LogRaises |};
       logged [seen istanbul_baslik SinkOk]] initial_state = Ends st /\
    trace st = [SinkCall istanbul_baslik istanbul_candidate SinkRaises] /\
    fetch_count st = 1.
Proof. eexists. split; [vm_compute; reflexivity|]. split; reflexivity. Qed.

(** A fetch that raises is not counted: the handler logs and sleeps, and
    the next fetch is the first. *)
Example raising_fetch_is_not_counted :
  exists st,
    run_until latin_db
      [{| it_fetch := None; it_heartbeat_log := LogOk; it_handler_log := LogOk |};
       logged [seen quiet_baslik SinkOk]] initial_state = Continues st /\
    trace st = [UnexpectedError; Sleep 30; Sleep 30] /\
    fetch_count st = 1.
Proof. eexists. split; [vm_compute; reflexivity|]. split; reflexivity. Qed.



(** ** The further properties on example titles, runs and pages *)

Definition two_months_title : str := u "22 ekim 2025 istanbul depremi mart".
Definition two_provinces_title : str := u "22 ekim 2025 istanbul ankara depremi".
Definition invalid_date_title : str := u "30 şubat 2025 istanbul depremi".

Definition two_months_candidate : Candidate :=
  {| c_day := 22; c_month := 3; c_month_name := u "mart"; c_year := 2025;
     c_province := u "istanbul"; c_has_earthquake_keyword := true;
     c_confidence := high |}.

Definition two_provinces_candidate : Candidate :=
  {| c_day := 22; c_month := 10; c_month_name := u "ekim"; c_year := 2025;
     c_province := u "ankara"; c_has_earthquake_keyword := true;
     c_confidence := high |}.

Definition maras_candidate : Candidate :=
  {| c_day := 6; c_month := 2; c_month_name := u "subat"; c_year := 2025;
     c_province := u "kahramanmaraş"; c_has_earthquake_keyword := true;
     c_confidence := high |}.

Definition plain_istanbul_candidate : Candidate :=
  {| c_day := 22; c_month := 10; c_month_name := u "ekim"; c_year := 2025;
     c_province := u "istanbul"; c_has_earthquake_keyword := false;
     c_confidence := medium |}.

(** An anchor whose text ends with the entry count. *)
Definition counted_item (text count : string) : list_item :=
  {| li_anchor := Some {| a_text := u text; a_href := Some (u "/baslik--1");
                          a_small := Some (u count) |};
     li_timestamp := u "2025-10-22T12:00:00" |}.

Definition counted_baslik (t count : string) : Baslik :=
  {| title := u t; url := u "/baslik--1"; entry_count := u count;
     timestamp := u "2025-10-22T12:00:00" |}.

Example replace_without_overlap :
  str_replace (u "aa") [] (u "aaa") = u "a" /\
  str_replace (u "ab") [] (u "aabb") = u "ab" /\
  str_replace (u "bc") (u "XY") (u "abcabcb") = u "aXYaXYb" /\
  str_replace [] (u "-") (u "abc") = u "-a-b-c-".
Proof. vm_compute. repeat split; reflexivity. Qed.

Example count_two_damages_the_date :
  baslik_of_item latin_isspace (counted_item "22 ekim 2025 istanbul depremi2" "2")
  = Some (counted_baslik "ekim 05 istanbul depremi" "2").
Proof. vm_compute. reflexivity. Qed.

(** X1 on the sample title of the day. *)
Lemma candidate_well_formed_witness :
  is_earthquake_baslik latin_db (at_noon 2025 10 22) (title istanbul_baslik)
    = Some istanbul_candidate /\
  (1 <= c_day istanbul_candidate <= 31 /\
   In (c_month_name istanbul_candidate, c_month istanbul_candidate) MONTHS /\
   1 <= c_month istanbul_candidate <= 12 /\
   2000 <= c_year istanbul_candidate <= 2099 /\
   In (c_province istanbul_candidate) PROVINCES /\
   (c_confidence istanbul_candidate = high
    <-> c_has_earthquake_keyword istanbul_candidate = true)).
Proof.
  split; [vm_compute; reflexivity|].
  apply (candidate_well_formed latin_db (at_noon 2025 10 22) (title istanbul_baslik)).
  vm_compute. reflexivity.
Defined.

(** X2 on the sample title of the day before. *)
Lemma candidate_date_is_current_witness :
  is_earthquake_baslik latin_db (at_noon 2025 10 22) (title mardin_baslik)
    = Some mardin_candidate /\
  check_date_fields 2025 10 21 = true /\
  Z.abs (days_between (Date 2025 10 21) (Date 2025 10 22)) <= 1.
Proof.
  split; [vm_compute; reflexivity|].
  apply (candidate_date_is_current latin_db (at_noon 2025 10 22) (title mardin_baslik)
           mardin_candidate).
  vm_compute. reflexivity.
Defined.

(** X3 on the sample title of the day. *)
Lemma candidate_iff_date_and_province_witness :
  exists d m y,
    extract_day latin_db (title istanbul_baslik) = Some d /\
    extract_month latin_db (title istanbul_baslik) = Some m /\
    extract_year latin_db (title istanbul_baslik) = Some y /\
    check_date_fields y m d = true /\
    Z.abs (days_between (Date y m d) (dt_date (at_noon 2025 10 22))) <= 1 /\
    recognized_province latin_db (title istanbul_baslik).
Proof.
  apply (candidate_iff_date_and_province latin_db).
  exists istanbul_candidate. vm_compute. reflexivity.
Defined.

(** X4 on the sample title, seen on its day and on the day after. *)
Lemma candidate_independent_of_clock_witness :
  is_earthquake_baslik latin_db (at_noon 2025 10 22) (title istanbul_baslik)
    = Some istanbul_candidate /\
  is_earthquake_baslik latin_db (at_noon 2025 10 23) (title istanbul_baslik)
    = Some istanbul_candidate.
Proof.
  assert (H1 : is_earthquake_baslik latin_db (at_noon 2025 10 22) (title istanbul_baslik)
               = Some istanbul_candidate) by (vm_compute; reflexivity).
  split; [exact H1|].
  destruct (is_earthquake_baslik latin_db (at_noon 2025 10 23) (title istanbul_baslik))
    as [c2|] eqn:E2; [|vm_compute in E2; discriminate].
  f_equal. symmetry.
  exact (candidate_independent_of_clock latin_db _ _ _ _ _ H1 E2).
Defined.

(** X5 on a title with "ekim" and, after it, "mart": "mart" comes first in
    the lexicon and gives the month. *)
Lemma month_is_first_lexicon_match_witness :
  is_earthquake_baslik latin_db (at_noon 2025 3 22) two_months_title
    = Some two_months_candidate /\
  exists before after,
    MONTHS = (before ++ (u "mart", 3) :: after)%list /\
    substring (u "mart") (str_lower latin_db two_months_title) /\
    forall e, In e before -> ~ substring (fst e) (str_lower latin_db two_months_title).
Proof.
  split; [vm_compute; reflexivity|].
  apply (month_is_first_lexicon_match latin_db (at_noon 2025 3 22) two_months_title
           two_months_candidate).
  vm_compute. reflexivity.
Defined.

(** X6 on a title with "istanbul" and, after it, "ankara": "ankara" comes
    first in the list and is the province. *)
Lemma province_is_first_list_match_witness :
  is_earthquake_baslik latin_db (at_noon 2025 10 22) two_provinces_title
    = Some two_provinces_candidate /\
  exists before after,
    PROVINCES = (before ++ u "ankara" :: after)%list /\
    (whole_word latin_db (u "ankara") (str_lower latin_db two_provinces_title)
     \/ whole_word latin_db (normalize_turkish latin_db (u "ankara"))
          (normalize_turkish latin_db two_provinces_title)) /\
    forall q, In q before ->
      ~ whole_word latin_db q (str_lower latin_db two_provinces_title) /\
      ~ whole_word latin_db (normalize_turkish latin_db q)
          (normalize_turkish latin_db two_provinces_title).
Proof.
  split; [vm_compute; reflexivity|].
  apply (province_is_first_list_match latin_db (at_noon 2025 10 22) two_provinces_title
           two_provinces_candidate).
  vm_compute. reflexivity.
Defined.

(** X7 on the sample title of the day. *)
Lemma keyword_flag_is_deprem_witness :
  c_has_earthquake_keyword istanbul_candidate = true
  <-> substring (u "deprem") (str_lower latin_db (title istanbul_baslik)).
Proof.
  apply (keyword_flag_is_deprem latin_db (at_noon 2025 10 22)).
  vm_compute. reflexivity.
Defined.

(** X8 on the ASCII spelling of Kahramanmaraş. *)
Lemma shadowed_variant_never_reported_witness :
  In (u "kahramanmaras") shadowed_provinces /\
  is_earthquake_baslik latin_db (at_noon 2025 2 6) maras_folded = Some maras_candidate /\
  ~ In (c_province maras_candidate) shadowed_provinces.
Proof.
  split; [vm_compute; tauto|].
  assert (H : is_earthquake_baslik latin_db (at_noon 2025 2 6) maras_folded
              = Some maras_candidate) by (vm_compute; reflexivity).
  split; [exact H|].
  exact (shadowed_variant_never_reported latin_db _ _ _ H).
Defined.

(** X9 on a word with three characters of the table. *)
Lemma normalized_text_has_no_table_character_witness :
  In 115 (normalize_turkish latin_db (u "ŞİŞLİ")) /\
  ~ In 115 (map fst replacements).
Proof.
  assert (H : In 115 (normalize_turkish latin_db (u "ŞİŞLİ"))) by (vm_compute; tauto).
  split; [exact H|].
  exact (normalized_text_has_no_table_character latin_db _ _ H).
Defined.

(** X10 on a title dated 30 February. *)
Lemma invalid_date_no_match_witness :
  extract_day latin_db invalid_date_title = Some 30 /\
  extract_month latin_db invalid_date_title = Some 2 /\
  extract_year latin_db invalid_date_title = Some 2025 /\
  check_date_fields 2025 2 30 = false /\
  is_earthquake_baslik latin_db (at_noon 2025 3 1) invalid_date_title = None.
Proof.
  repeat (split; [vm_compute; reflexivity|]).
  apply (invalid_date_no_match latin_db _ _ 30 2 2025); vm_compute; reflexivity.
Defined.

(** X11 at the end of 2024 and at the end of February 2024. *)
Lemma last_day_of_month_is_current_next_day_witness :
  is_date_current (at_noon 2025 1 1) 31 12 2024 1 = true /\
  is_date_current (at_noon 2024 3 1) 29 2 2024 1 = true.
Proof.
  split.
  - apply (last_day_of_month_is_current_next_day (at_noon 2025 1 1) 2024 12);
      [lia | lia | reflexivity].
  - apply (last_day_of_month_is_current_next_day (at_noon 2024 3 1) 2024 2);
      [lia | lia | reflexivity].
Defined.

(** X12 on two titles of the same event, with and without the keyword. *)
Lemma dedup_key_determines_identity_witness :
  is_earthquake_baslik latin_db (at_noon 2025 10 22) (u "22 ekim 2025 istanbul")
    = Some plain_istanbul_candidate /\
  earthquake_id istanbul_candidate = earthquake_id plain_istanbul_candidate /\
  event_identity istanbul_candidate = event_identity plain_istanbul_candidate.
Proof.
  split; [vm_compute; reflexivity|]. split; [vm_compute; reflexivity|].
  apply (dedup_key_determines_identity latin_db
           (at_noon 2025 10 22) (title istanbul_baslik) _
           (at_noon 2025 10 22) (u "22 ekim 2025 istanbul") _);
    vm_compute; reflexivity.
Defined.

(** X13 on a cycle with a quiet topic and the sample topic. *)
Lemma sink_calls_come_from_detected_topics_witness :
  exists basliks ob,
    In basliks [[seen quiet_baslik SinkOk; seen istanbul_baslik SinkOk]] /\
    In ob basliks /\ o_baslik ob = istanbul_baslik /\ o_sink ob = SinkOk /\
    is_earthquake_baslik latin_db (o_now ob) (title istanbul_baslik)
      = Some istanbul_candidate.
Proof.
  apply (sink_calls_come_from_detected_topics latin_db).
  vm_compute. left. reflexivity.
Defined.

(** X16 on a run with a call that raises and a call that returns. *)
Lemma dedup_store_is_the_recorded_calls_witness :
  earthquake_id mardin_candidate
    ∈ detected_earthquakes
        (monitor_earthquakes latin_db
           [[seen istanbul_baslik SinkRaises]; [seen mardin_baslik SinkOk]]) /\
  earthquake_id istanbul_candidate
    ∉ detected_earthquakes
        (monitor_earthquakes latin_db
           [[seen istanbul_baslik SinkRaises]; [seen mardin_baslik SinkOk]]).
Proof.
  split.
  - apply (dedup_store_is_the_recorded_calls latin_db).
    exists mardin_baslik, mardin_candidate. split; [|reflexivity].
    vm_compute. right. right. right. right. left. reflexivity.
  - intros H. apply (dedup_store_is_the_recorded_calls latin_db) in H
      as (b & pm & Hin & Hid).
    vm_compute in Hin.
    destruct Hin as [Hin|[Hin|[Hin|[Hin|[Hin|[Hin|[]]]]]]]; try discriminate Hin.
    injection Hin as <- <-. vm_compute in Hid. discriminate Hid.
Defined.


(** X18 on a topic with five entries. *)
Lemma single_character_count_is_erased_witness :
  baslik_of_item latin_isspace (counted_item "22 ekim 2025 istanbul depremi5" "5")
    = Some (counted_baslik "22 ekim 202 istanbul depremi" "5") /\
  ~ In 53 (title (counted_baslik "22 ekim 202 istanbul depremi" "5")).
Proof.
  split; [vm_compute; reflexivity|].
  apply (single_character_count_is_erased latin_isspace
           (counted_item "22 ekim 2025 istanbul depremi5" "5")
           {| a_text := u "22 ekim 2025 istanbul depremi5";
              a_href := Some (u "/baslik--1"); a_small := Some (u "5") |}
           53 (counted_baslik "22 ekim 202 istanbul depremi" "5"));
    vm_compute; reflexivity.
Defined.


(** X20 on an anchor text with a space before the count. *)
Lemma title_of_counted_topic_is_stripped_witness :
  baslik_of_item latin_isspace (counted_item "gram altın 12" "12")
    = Some (counted_baslik "gram altın" "12") /\
  (forall c, head (title (counted_baslik "gram altın" "12")) = Some c ->
             latin_isspace c = false) /\
  (forall c, last (title (counted_baslik "gram altın" "12")) = Some c ->
             latin_isspace c = false).
Proof.
  split; [vm_compute; reflexivity|].
  apply (title_of_counted_topic_is_stripped latin_isspace
           (counted_item "gram altın 12" "12")
           {| a_text := u "gram altın 12";
              a_href := Some (u "/baslik--1"); a_small := Some (u "12") |}
           (u "12") (counted_baslik "gram altın" "12"));
    vm_compute; reflexivity.
Defined.

(** X21 on the same anchor: the count occurs only at the end. *)
Lemma trailing_count_is_removed_witness :
  title (counted_baslik "gram altın" "12") = strip latin_isspace (u "gram altın ") /\
  entry_count (counted_baslik "gram altın" "12") = u "12".
Proof.
  apply (trailing_count_is_removed latin_isspace
           (counted_item "gram altın 12" "12")
           {| a_text := u "gram altın 12";
              a_href := Some (u "/baslik--1"); a_small := Some (u "12") |}
           (u "12") (u "gram altın ") (counted_baslik "gram altın" "12")).
  - vm_compute. reflexivity.
  - vm_compute. reflexivity.
  - vm_compute. discriminate.
  - vm_compute. reflexivity.
  - apply occurs_only_at_end_check. vm_compute. reflexivity.
  - vm_compute. reflexivity.
Defined.
